(** * Hermetic-Voynich: the translator pipeline and the pattern scanner

    A shallow embedding of [translator.py] and of the operator scan of
    [pattern_recog.py], with the properties of the design document proved
    (or refuted) on it.

    Conventions.
    - A Python [str] is a sequence of Unicode code points: [list N].
      Literals of the source are written [lit "..."], which decodes the
      UTF-8 bytes of the Rocq literal into code points.
    - A Python [dict] is a [gmap].
    - Exceptions are values of [exn]; code that reads and writes files runs
      in the monad [M] over the file store.
    - [json.load] and [csv.reader] are library parsers: they are parameters
      of the orchestrator's section, and so is the locale's encoding, as
      far as it decides whether a write succeeds.
    - The store holds the text of each file. Which bytes hold that text
      depends on the encoding of the write (UTF-8 or the locale's) and is
      not modelled. *)

From Stdlib Require Import ZArith NArith List Ascii String DecimalString Lia.
From stdpp Require Import base option list gmap strings.

Local Open Scope N_scope.

(** ** Python strings *)

Abbreviation str := (list N).

Module Str.

(** Decoder of the UTF-8 bytes of a literal (well-formed by construction:
    the literals are the source file's own). *)
Fixpoint utf8 (bs : list N) : str :=
  match bs with
  | [] => []
  | b0 :: r0 =>
    if b0 <? 0x80 then b0 :: utf8 r0
    else if b0 <? 0xE0 then
      match r0 with
      | b1 :: r1 => ((b0 - 0xC0) * 0x40 + (b1 - 0x80)) :: utf8 r1
      | _ => []
      end
    else if b0 <? 0xF0 then
      match r0 with
      | b1 :: b2 :: r2 =>
        ((b0 - 0xE0) * 0x1000 + (b1 - 0x80) * 0x40 + (b2 - 0x80)) :: utf8 r2
      | _ => []
      end
    else
      match r0 with
      | b1 :: b2 :: b3 :: r3 =>
        ((b0 - 0xF0) * 0x40000 + (b1 - 0x80) * 0x1000
         + (b2 - 0x80) * 0x40 + (b3 - 0x80)) :: utf8 r3
      | _ => []
      end
  end.

Definition lit (s : string) : str :=
  utf8 (N_of_ascii <$> list_ascii_of_string s).

(** [str.isspace] on one code point (the table of CPython's
    [_PyUnicode_IsWhitespace]). *)
Definition isspace (c : N) : bool :=
  ((0x09 <=? c) && (c <=? 0x0D)) || ((0x1C <=? c) && (c <=? 0x20))
  || (c =? 0x85) || (c =? 0xA0) || (c =? 0x1680)
  || ((0x2000 <=? c) && (c <=? 0x200A))
  || (c =? 0x2028) || (c =? 0x2029) || (c =? 0x202F) || (c =? 0x205F)
  || (c =? 0x3000).

(** Line boundaries of [str.splitlines]. *)
Definition islinebreak (c : N) : bool :=
  ((0x0A <=? c) && (c <=? 0x0D)) || ((0x1C <=? c) && (c <=? 0x1E))
  || (c =? 0x85) || (c =? 0x2028) || (c =? 0x2029).

Fixpoint lstrip_by (p : N → bool) (s : str) : str :=
  match s with
  | c :: r => if p c then lstrip_by p r else s
  | [] => []
  end.

Definition rstrip_by (p : N → bool) (s : str) : str :=
  reverse (lstrip_by p (reverse s)).

Definition strip_by (p : N → bool) (s : str) : str :=
  rstrip_by p (lstrip_by p s).

Definition mem (chars : str) (c : N) : bool := bool_decide (c ∈ chars).

(** [s.strip()], [s.strip(chars)], [s.lstrip(chars)]. *)
Definition strip (s : str) : str := strip_by isspace s.
Definition strip_chars (chars s : str) : str := strip_by (mem chars) s.
Definition lstrip_chars (chars s : str) : str := lstrip_by (mem chars) s.

(** [s.splitlines()]: [cur] is the line being read, last code point first.
    A carriage return followed by a line feed is one boundary; no empty
    line is produced after a final boundary. *)
Fixpoint splitlines_from (cur : str) (s : str) : list str :=
  match s with
  | [] => match cur with [] => [] | _ => [reverse cur] end
  | c :: r =>
    if c =? 0x0D then
      match r with
      | c' :: r' =>
        if c' =? 0x0A then reverse cur :: splitlines_from [] r'
        else reverse cur :: splitlines_from [] r
      | [] => reverse cur :: splitlines_from [] r
      end
    else if islinebreak c then reverse cur :: splitlines_from [] r
    else splitlines_from (c :: cur) r
  end.

Definition splitlines (s : str) : list str := splitlines_from [] s.

(** [s.startswith(p)]. *)
Fixpoint startswith (p s : str) : bool :=
  match p, s with
  | [], _ => true
  | a :: p', b :: s' => (a =? b) && startswith p' s'
  | _ :: _, [] => false
  end.

(** [s.find(sub)]: the lowest index at which [sub] occurs. *)
Fixpoint find (sub s : str) : option nat :=
  if startswith sub s then Some 0%nat
  else match s with
       | [] => None
       | _ :: r => S <$> find sub r
       end.

(** [sub in s]. *)
Definition contains (sub s : str) : bool :=
  match find sub s with Some _ => true | None => false end.

(** [s.split(sep, 1)] for a non-empty separator. *)
Definition split1 (sep s : str) : list str :=
  match find sep s with
  | None => [s]
  | Some i => [take i s; drop (i + length sep) s]
  end.

(** [sep.join(parts)]. *)
Fixpoint join (sep : str) (parts : list str) : str :=
  match parts with
  | [] => []
  | [x] => x
  | x :: rest => x ++ sep ++ join sep rest
  end.

(** [s.lower()] as far as a comparison with an ASCII literal can observe
    it: the full case mapping on ASCII, on U+0130 (which lower-cases to
    [i] followed by U+0307) and on U+212A (the Kelvin sign, to [k]); these
    two are the only code points outside ASCII whose lower case contains an
    ASCII code point.  Every other code point stands for its own lower
    case, which lies outside ASCII as well. *)
Definition lower_cp (c : N) : str :=
  if (0x41 <=? c) && (c <=? 0x5A) then [c + 0x20]
  else if c =? 0x130 then [0x69; 0x307]
  else if c =? 0x212A then [0x6B]
  else [c].

Definition lower (s : str) : str := s ≫= lower_cp.

(** [str(n)] for an integer. *)
Definition of_Z (n : Z) : str :=
  lit (NilZero.string_of_int (Z.to_int n)).

(** [xs.index(x)]: position of the first element equal to [x]. *)
Fixpoint index (x : str) (xs : list str) : option nat :=
  match xs with
  | [] => None
  | y :: r => if decide (y = x) then Some 0%nat else S <$> index x r
  end.

(** The empty string. *)
Definition empty : str := [].

(** Truth value of a string. *)
Definition nonempty (s : str) : bool :=
  match s with [] => false | _ => true end.

End Str.

Import Str.

(** ** [pattern_recog.py] *)

Module PatternRecog.

Definition OPS : list str :=
  [lit "Ĉ"; lit "Ŝ"; lit "B̂"; lit "R̂"; lit "E"; lit "F"; lit "T"; lit "H";
   lit "D"; lit "M"; lit "X"; lit "N"].

(** The [operators_detected] entry of [analyze(text)]:
    [[op for op in OPS if op in text]]. *)
Definition operators_detected (text : str) : list str :=
  filter (λ op, contains op text) OPS.

End PatternRecog.


(** ** [translator.py] *)

Module Translator.

(** *** Paths *)

Definition SEQ_PATH : string := "/mnt/data/extendedset_v15.json".
Definition PICT_PATH : string := "/mnt/data/extendedset_v15.csv".
Definition DEC_PATH : string := "/mnt/data/f1r_decision_note.txt".

Definition OUT_12 : string := "/mnt/data/f1r_translation_12key.txt".
Definition OUT_7 : string := "/mnt/data/f1r_translation_7step.txt".
Definition OUT_12_LAB : string := "/mnt/data/f1r_translation_12key_lab.txt".
Definition OUT_12_SPIR : string := "/mnt/data/f1r_translation_12key_spirit.txt".
Definition OUT_12_MERGE : string := "/mnt/data/f1r_translation_12key_merged.txt".
Definition OUT_12_TRANSL : string := "/mnt/data/f1r_translation_12key_translation.txt".
Definition OUT_7_LAB : string := "/mnt/data/f1r_translation_7step_lab.txt".
Definition OUT_7_SPIR : string := "/mnt/data/f1r_translation_7step_spirit.txt".
Definition OUT_7_MERGE : string := "/mnt/data/f1r_translation_7step_merged.txt".
Definition OUT_7_TRANSL : string := "/mnt/data/f1r_translation_7step_translation.txt".

(** *** Values, exceptions, the file store *)

(** The values a [csv.DictReader] row holds under a field name: a string,
    or [None] for a field the row is too short to fill. *)
Inductive value := PyNone | PyStr (s : str).

Definition truthy (v : value) : bool :=
  match v with PyNone => false | PyStr s => nonempty s end.

(** [a or b]. *)
Definition py_or (a b : value) : value := if truthy a then a else b.

(** A value interpolated in an f-string. *)
Definition format (v : value) : str :=
  match v with PyNone => lit "None" | PyStr s => s end.

(** One row of [csv.DictReader]: the entries under the field names, and
    the entry under the key [None] (the fields beyond the header), which
    is the only entry that holds a list. *)
Record pict := Pict {
  cells : gmap (list N) value;
  surplus : option (list str)
}.

Definition empty_pict : pict := {| cells := ∅; surplus := None |}.

(** [d.get(key, default)] for a string key. *)
Definition get (d : pict) (key : str) (default : value) : value :=
  match cells d !! key with Some v => v | None => default end.

(** The sequence document as the runner writes it: an object whose
    [operator_histogram], when present, is a list of [symbol, count]
    pairs with an integer count.  This type is the domain of the model:
    documents that [json.load] accepts but that have another shape (on
    which the assemblers raise, or format values of other types) are not
    covered. *)
Record seq_data := SeqData {
  operator_histogram : option (list (str * Z))
}.

Inductive exn :=
  | FileNotFoundError | JSONDecodeError | CsvError | ValueError | IndexError
  | UnicodeEncodeError.

Inductive result (A : Type) := Ok (a : A) | Raise (e : exn).
Arguments Ok {A} a.
Arguments Raise {A} e.

(** The file store: the text each existing path holds (for a file that
    was written, the text that was encoded into it). *)
Abbreviation fs := (gmap string (list N)).

Definition M (A : Type) : Type := fs → fs * result A.

#[global] Instance M_ret : MRet M := λ A a σ, (σ, Ok a).
#[global] Instance M_bind : MBind M := λ A B f m σ,
  match m σ with
  | (σ', Ok a) => f a σ'
  | (σ', Raise e) => (σ', Raise e)
  end.

Definition raise {A} (e : exn) : M A := λ σ, (σ, Raise e).

(** A computation that does not touch the store. *)
Definition pure {A} (r : result A) : M A := λ σ, (σ, r).

(** [path.exists()]. *)
Definition path_exists (path : string) : M bool :=
  λ σ, (σ, Ok (bool_decide (is_Some (σ !! path)))).

(** Reading a file opened with [newline=""]: the text as stored. *)
Definition read_raw (path : string) : M str :=
  λ σ, match σ !! path with
       | Some text => (σ, Ok text)
       | None => (σ, Raise FileNotFoundError)
       end.

(** Universal newlines: a text-mode read turns CR LF and CR into LF. *)
Fixpoint universal_newlines (s : str) : str :=
  match s with
  | [] => []
  | c :: r =>
    if c =? 0x0D then
      match r with
      | c' :: r' =>
        if c' =? 0x0A then 0x0A :: universal_newlines r'
        else 0x0A :: universal_newlines r
      | [] => 0x0A :: universal_newlines r
      end
    else c :: universal_newlines r
  end.

(** [path.read_text(...)] and reading a file opened in mode ["r"]. *)
Definition read_text (path : string) : M str :=
  text ← read_raw path; mret (universal_newlines text).

(** UTF-8 encodes every text without surrogate code point. *)
Definition utf8_encodable (text : str) : bool :=
  forallb (λ c, negb ((0xD800 <=? c) && (c <=? 0xDFFF))) text.

(** [path.write_text(text, encoding=...)]: the file is opened for
    writing, which empties it; the text is then encoded as a whole and
    written.  [encodable] tells whether the encoding of the call has the
    text: UTF-8 where the call names it, the locale's encoding where the
    call names none.  When it has not, [UnicodeEncodeError] is raised and
    the file is left empty. *)
Definition write_text (encodable : str → bool) (path : string) (text : str)
    : M unit :=
  λ σ, if encodable text then (<[path := text]> σ, Ok tt)
       else (<[path := []]> σ, Raise UnicodeEncodeError).

(** *** Loaders *)

(** [dict(zip(fieldnames, row))] and the filling of [csv.DictReader]:
    surplus fields go under the key [None], missing ones are [None]. *)
Definition dict_row (fieldnames row : list str) : pict :=
  let d := foldl (λ m kv, <[kv.1 := PyStr kv.2]> m) ∅ (zip fieldnames row) in
  let lf := length fieldnames in
  let lr := length row in
  if (lf <? lr)%nat then {| cells := d; surplus := Some (drop lf row) |}
  else if (lr <? lf)%nat then
    {| cells := foldl (λ m key, <[key := PyNone]> m) d (drop lr fieldnames);
       surplus := None |}
  else {| cells := d; surplus := None |}.

(** [list(csv.DictReader(f))] on the rows [csv.reader] yields: the first
    row is the header, empty rows after it are skipped. *)
Definition DictReader (rows : list (list str)) : list pict :=
  match rows with
  | [] => []
  | fieldnames :: data => dict_row fieldnames <$> filter (λ r, r ≠ []) data
  end.

(** The body of [load_decision] once the note is read: lines 70 to 81. *)
Definition decision_of_text (text : str) : result (str * list str) :=
  let lines := splitlines text in
  let dec := lit "UNKNOWN" in
  let rationale := [] in
  match lines with
  | [] => Ok (dec, rationale)
  | line0 :: rest =>
    let head := strip line0 in
    let rationale :=
      foldl (λ rationale ln,
               let ln := strip (strip_chars (lit "- ") ln) in
               if nonempty ln then rationale ++ [ln] else rationale)
            rationale rest in
    if startswith (lit "decision:") (lower head) then
      match split1 (lit ":") head !! 1%nat with
      | Some v => Ok (strip v, rationale)
      | None => Raise IndexError
      end
    else Ok (dec, rationale)
  end.

Definition load_decision (path : string) : M (str * list str) :=
  present ← path_exists path;
  if negb present then mret (lit "UNKNOWN", [])
  else
    text ← read_text path;
    pure (decision_of_text text).

(** *** Extractors *)

Definition phrase_counts (p : pict) : value * value * value * value * value :=
  let roots := get p (lit "roots_count") (PyStr (lit "?")) in
  let leaves :=
    py_or (py_or (get p (lit "leaf_groups_count") PyNone)
                 (get p (lit "leaf_pairs_count") PyNone))
          (PyStr (lit "?")) in
  let buds := get p (lit "bud_count") (PyStr (lit "?")) in
  let bud_state := get p (lit "bud_state") (PyStr (lit "?")) in
  let bud_color := get p (lit "bud_colour") (PyStr (lit "?")) in
  (roots, leaves, buds, bud_state, bud_color).

Definition top_ops_hist (sd : seq_data) (k : nat) : list str :=
  let hist := default [] (operator_histogram sd) in
  (λ e, e.1 ++ lit "×" ++ of_Z e.2) <$> take k hist.

(** *** Frame assemblers *)

Definition body_12key : list str :=
  [
   lit "Step 1 — Vessel & Naming" ++ empty;
   lit "Dual Reading:";
   lit "The vessel is both the physical flask and the soul’s container. Invocation awakens both the material and the self to the alchemical journey.";
   empty;
   lit "The division marks not only chemical partition but the mystical separation of ego and essence.";
   empty;
   lit "Dissolution serves to cleanse material and purify the inner self through surrender.";
   empty;
   lit "Distillation echoes the ascent of spirit; impurities fall away in both lab and life.";
   empty;
   lit "Conjunction reflects union: Sulphur and Mercury, masculine and feminine, body and soul.";
   empty;
   lit "Nigredo symbolizes the dark night of the soul; the blackening before rebirth.";
   empty;
   lit "Albedo washes the psyche clean; Luna’s light reveals the purified spirit.";
   empty;
   lit "Citrinitas is the dawning awareness; Mars forges willpower in transformation.";
   empty;
   lit "Rubedo completes the cycle: the alchemist becomes the Stone.";
   empty;
   lit "Planetary forces don’t just guide reactions—they govern stages of inner development.";
   empty;
   lit "Circulation mirrors breath, prayer, and meditation: the Work is not linear.";
   empty;
   lit "The seal closes not only a flask, but also a rite. Completion blesses both craft and soul.";
   lit "The matter is named and bound in its vessel. The root marks the body (Salt), fixed under Saturn’s weight. " ++ lit "Invocation is repeated in glyphs (e.g., daiin) and leaf pairing, sealing the beginning of the work.";
   empty;
   lit "Step 2 — Division";
   lit "The one is divided into twain and thrice: leaf pairs show duality, triplets imply the tria prima. " ++ lit "Repetitions (daiin/aiin) and fixatives (chedy) portion the matter.";
   empty;
   lit "Step 3 — Dissolution";
   lit "Stems and loops mark circulation and washing. Tokens like shol/chor indicate solve in water; the matter is softened and set apart.";
   empty;
   lit "Step 4 — Distillation";
   lit "Droplet-like signs and repeated shody/qokedy patterns suggest distillation. Vapour rises and returns as dew; the subtle is separated from the gross.";
   empty;
   lit "Step 5 — Conjunction";
   lit "Two buds appear, closed then opening: Sulphur unites with Mercury. Conjunction signs (cfhol) and daiin repetitions confirm the aim.";
   empty;
   lit "Step 6 — Black Phase (Nigredo)";
   lit "Darkness of the root signals nigredo. The body putrefies; successive shody seals fix the stage.";
   empty;
   lit "Step 7 — White Phase (Albedo)";
   lit "Leaves pale; east–west orientation encodes invocation and washing. Luna presides; the spirit clarifies.";
   empty;
   lit "Step 8 — Yellow Phase (Citrinitas)";
   lit "Intermediate yellowing under Mars’s heat prepares perfection. Iterative forms (chedy, cthar) track cycles.";
   empty;
   lit "Step 9 — Red Phase (Rubedo)";
   lit "The two red buds are the clearest cipher: open and red = Rubedo, the crown of the Work. Sol governs completion.";
   empty;
   lit "Step 10 — Planetary Governance";
   lit "Saturn delays, Mars heats, Luna moistens, Sol perfects; leaf direction hints Air and Water. Planetary order binds the phases.";
   empty;
   lit "Step 11 — Circulation & Return";
   lit "Cycles of daiin, shol, chor command: solve → coagula → fix. Vapours rise and fall; leaf pairs confirm counts (2, 3, 7).";
   empty;
   lit "Step 12 — Seal & Completion";
   lit "Final y-terminations act as seals. With buds now red/open, the final conjunction is declared: the Work is closed and fixed."
  ].

Definition body_7step : list str :=
  [
   lit "1) Name & Bind — Identify the matter, bind in the vessel, open the cycle with invocations (daiin)." ++ empty;
   lit "Spiritual Parallel:";
   lit "1) The name calls the soul to action; the vessel holds intent.";
   lit "2) Separation defines inner conflict; parts must know themselves.";
   lit "3) Washing purifies ego; flow liberates spirit.";
   lit "4) Distilling refines insight; vapor rises, truth condenses.";
   lit "5) Union heals duality; opposites embrace.";
   lit "6) Fixing grounds the Self; realization stabilizes the soul.";
   lit "7) Rubedo crowns the seeker; the Work completes with wisdom.";
   lit "2) Divide & Portion — Split into halves/thirds; assign portions; chedy marks fixation points.";
   lit "3) Solve — Wash/circulate (shol/chor); soften and separate.";
   lit "4) Distil — Raise and return the subtle (shody/qokedy); condense as dew.";
   lit "5) Conjoin — Recombine fractions (cfhol) under measured heat.";
   lit "6) Fix — Seal interim results (y endings), weigh against root heaviness (Saturn).";
   lit "7) Perfect — Advance through colours to red; crown under Sol; close with a final seal."
  ].

Definition snapshot (p : pict) (sd : seq_data) : str :=
  let '(roots, leaves, buds, bud_state, bud_color) := phrase_counts p in
  let ops := join (lit ", ") (top_ops_hist sd 6) in
  lit "Snapshot: roots=" ++ format roots ++ lit ", leaves≈" ++ format leaves
  ++ lit ", buds=" ++ format buds ++ lit " (" ++ format bud_state ++ lit "/"
  ++ format bud_color ++ lit "); frequent ops: " ++ ops.

Definition make_12key (sd : seq_data) (p : pict) (decision : str)
    (rationale : list str) : list str :=
  let t := [] in
  let t := t ++ [lit "Translation of f1r — Twelve Keys (Allegorical)"] in
  let t := t ++ [lit "—"] in
  let t := t ++ [snapshot p sd] in
  let t :=
    match rationale with
    | [] => t
    | _ => t ++ [lit "Decision rationale: " ++ join (lit "; ") rationale]
    end in
  let t := t ++ [empty] in
  let t := t ++ body_12key in
  t.

Definition make_7step (sd : seq_data) (p : pict) (decision : str)
    (rationale : list str) : list str :=
  let t := [] in
  let t := t ++ [lit "Translation of f1r — Seven-Step Operator Cycle"] in
  let t := t ++ [lit "—"] in
  let t := t ++ [snapshot p sd] in
  let t :=
    match rationale with
    | [] => t
    | _ => t ++ [lit "Decision rationale: " ++ join (lit "; ") rationale]
    end in
  let t := t ++ [empty] in
  let t := t ++ body_7step in
  t.

(** *** Splitting and merging the layers *)

(** The loop of lines 247 to 252 (and again 260 to 265) over
    [zip(head, tail)]. *)
Definition merge (head tail : list str) : list str :=
  foldl (λ merged pair,
           let op := pair.1 in
           let sp := pair.2 in
           if nonempty (strip op) && nonempty (strip sp) then
             merged ++ [strip op ++ lit " / " ++ strip sp]
           else if nonempty (strip op) then merged ++ [strip op]
           else merged)
        [] (zip head tail).

(** [txt.index(marker)], which raises [ValueError] when absent. *)
Definition index_of (marker : str) (txt : list str) : M nat :=
  match index marker txt with
  | Some i => mret i
  | None => raise ValueError
  end.

(** The text written for a list of lines: ["\n".join(lines) + "\n"]. *)
Definition render (lines : list str) : str := join [0x0A] lines ++ [0x0A].

(** The text written for a layer: ["\n".join(lines).strip() + "\n"]. *)
Definition render_layer (lines : list str) : str :=
  strip (join [0x0A] lines) ++ [0x0A].

(** [write_lines(path, lines)], which writes in UTF-8. *)
Definition write_lines (path : string) (lines : list str) : M unit :=
  write_text utf8_encodable path (join [0x0A] lines ++ [0x0A]).

(** *** Orchestrator *)

Section Orchestrator.

(** [json.load] on the text of a sequence document of the shape above
    ([None]: [json.load] raises [JSONDecodeError]), [csv.reader] on the
    text of the table ([None]: [csv.Error]), and whether the locale's
    encoding has a text. *)
Variable json_load : str → option seq_data.
Variable csv_reader : str → option (list (list str)).
Variable locale_encodable : str → bool.

Definition load_seq (path : string) : M seq_data :=
  text ← read_text path;
  match json_load text with
  | Some sd => mret sd
  | None => raise JSONDecodeError
  end.

Definition load_pict (path : string) : M pict :=
  text ← read_raw path;
  match csv_reader text with
  | None => raise CsvError
  | Some rs =>
    let rows := DictReader rs in
    mret (match rows with r :: _ => r | [] => empty_pict end)
  end.

(** Line 221: [load_pict(PICT_PATH) if PICT_PATH.exists() else {}]. *)
Definition main_pict : M pict :=
  path_exists PICT_PATH ≫= λ present : bool,
  if present then load_pict PICT_PATH else mret empty_pict.

(** Line 232 to 240: the short frame. *)
Definition main_txt7 (sd : seq_data) (p : pict) (decision : str)
    (rationale : list str) : list str :=
  if decide (decision = lit "7_STEPS_OPERATOR") then
    make_7step sd p decision rationale
  else
    make_7step sd p (lit "7_STEPS_OPERATOR (comparative)") [].

(** [main]; the two closing [print] calls write to the standard output
    only and are left out.  The two full frames are written in UTF-8
    (lines 230 and 242), the eight other files in the locale's
    encoding. *)
Definition main : M unit :=
  sd ← load_seq SEQ_PATH;
  p ← main_pict;
  dr ← load_decision DEC_PATH;
  let decision := dr.1 in
  let rationale := dr.2 in
  let txt12 := make_12key sd p decision rationale in
  write_text utf8_encodable OUT_12 (render txt12);;
  let txt7 := main_txt7 sd p decision rationale in
  write_text utf8_encodable OUT_7 (render txt7);;
  dual_start_12 ← index_of (lit "Dual Reading:") txt12;
  write_text locale_encodable OUT_12_LAB (render_layer (take dual_start_12 txt12));;
  write_text locale_encodable OUT_12_SPIR (render_layer (drop (dual_start_12 + 1) txt12));;
  let merged_12 :=
    merge (take dual_start_12 txt12) (drop (dual_start_12 + 1) txt12) in
  write_text locale_encodable OUT_12_MERGE (render merged_12);;
  write_text locale_encodable OUT_12_TRANSL (render txt12);;
  dual_start_7 ← index_of (lit "Spiritual Parallel:") txt7;
  write_text locale_encodable OUT_7_LAB (render_layer (take dual_start_7 txt7));;
  write_text locale_encodable OUT_7_SPIR (render_layer (drop (dual_start_7 + 1) txt7));;
  let merged_7 :=
    merge (take dual_start_7 txt7) (drop (dual_start_7 + 1) txt7) in
  write_text locale_encodable OUT_7_MERGE (render merged_7);;
  write_text locale_encodable OUT_7_TRANSL (render txt7).

End Orchestrator.

End Translator.

(** ** [pattern_recog.py]: the analysis and the command line *)

Module PatternRecogCli.
Import PatternRecog Translator.

(** The dictionary [analyze] returns. *)
Record analysis := Analysis {
  ops_detected : list str;
  claims : Z;
  neg_markers : Z;
  contradiction_score : Z
}.

(** How a run of the command line ends: [sys.exit(status)] after a message
    on the standard error, or the analysis printed. *)
Inductive outcome :=
  | SysExit (status : Z) (message : str)
  | Printed (a : analysis).

(** Truth value of an optional argument: [None] and the empty string are
    false. *)
Definition given_path (o : option string) : bool :=
  match o with
  | Some (String _ _) => true
  | _ => false
  end.

Definition given_text (o : option str) : bool :=
  match o with
  | Some s => nonempty s
  | None => false
  end.

Section Analyze.

(** [len(CLAIM_RE.findall(text))] and [len(NEG_RE.findall(text))]: the
    regular-expression engine is the library's. *)
Variable claim_matches : str → nat.
Variable neg_matches : str → nat.

Definition analyze (text : str) : analysis :=
  let ops := operators_detected text in
  let claims := Z.of_nat (claim_matches text) in
  let negs := Z.of_nat (neg_matches text) in
  let contradictions := Z.max 0 (claims - negs / 2)%Z in
  {| ops_detected := ops; claims := claims; neg_markers := negs;
     contradiction_score := contradictions |}.

(** [main] on the parsed arguments [args.file] and [args.text]. *)
Definition main (file : option string) (text : option str) : M outcome :=
  if negb (given_path file || given_text text) then
    mret (SysExit 2 (lit "Provide --file or --text"))
  else if given_path file then
    content ← read_text (default EmptyString file);
    mret (Printed (analyze content))
  else
    mret (Printed (analyze (default [] text))).

End Analyze.

End PatternRecogCli.

(** ** Vocabulary of the specification *)

Module Spec.
Import Translator.

(** Number of lines of [xs] equal to [x]. *)
Definition occurrences (x : str) (xs : list str) : nat :=
  length (filter (λ y, y = x) xs).

(** A line is blank when nothing is left of it after trimming. *)
Definition blank (s : str) : bool := negb (nonempty (strip s)).

(** The rationale line of a frame, present when there is a rationale. *)
Definition rationale_lines (rationale : list str) : list str :=
  match rationale with
  | [] => []
  | _ => [lit "Decision rationale: " ++ join (lit "; ") rationale]
  end.

(** Where the marker stands in a frame: after the title, the separator,
    the snapshot, the rationale line if any, the empty line and the first
    line of the body. *)
Definition marker_pos (rationale : list str) : nat :=
  (4 + length (rationale_lines rationale) + 1)%nat.

(** Lower case of an ASCII letter; other code points unchanged. *)
Definition ascii_lower (c : N) : N :=
  if (0x41 <=? c) && (c <=? 0x5A) then c + 0x20 else c.

(** The merged line a positional pair gives, if any: nothing when the head
    line is blank, the trimmed head line alone when only the tail line is
    blank, the two trimmed lines around the separator otherwise. *)
Definition merged_line (op sp : str) : option str :=
  if blank op then None
  else if blank sp then Some (strip op)
  else Some (strip op ++ lit " / " ++ strip sp).

(** A slot of the summary can be used when it is present and true
    (a non-empty string). *)
Definition usable (o : option value) : bool :=
  match o with Some v => truthy v | None => false end.

(** The [leaves] component of the five counts. *)
Definition leaves_of (t : value * value * value * value * value) : value :=
  t.1.1.1.2.

(** The rationale item a line of the note gives, if any: the line without
    the hyphens and spaces at both of its ends, then trimmed, when
    something is left. *)
Definition rationale_item (ln : str) : option str :=
  let item := strip (strip_chars (lit "- ") ln) in
  if nonempty item then Some item else None.

(** The rationale as the design document words it: the non-blank lines,
    each without its leading hyphens and spaces. *)
Definition stated_rationale (lines : list str) : list str :=
  lstrip_chars (lit "- ") <$> filter (λ ln, blank ln = false) lines.

(** [head] reads [decision:] in any mix of cases, then [v]. *)
Definition keyword_shape (head v : str) : Prop :=
  ∃ kw, head = kw ++ v ∧ ascii_lower <$> kw = lit "decision:".

(** Patterns on which [lower] and [ascii_lower] cannot be told apart:
    ASCII, no capital, no [k], and no [i] in last position. *)
Fixpoint plain_pattern (pat : str) : bool :=
  match pat with
  | [] => true
  | a :: rest =>
    (a <? 0x80) && negb ((0x41 <=? a) && (a <=? 0x5A)) && negb (a =? 0x6B)
    && (negb (a =? 0x69) || nonempty rest) && plain_pattern rest
  end.

(** A decision note, used to exercise the loader. *)
Definition note_example : str :=
  lit "  DeCiSiOn:  7_STEPS_OPERATOR " ++ [10%N] ++ lit "- two red buds -"
  ++ [13; 10; 10]%N ++ lit " -- " ++ [10%N] ++ lit "two red buds".

(** What the three loaders of [main] make of the content of their file,
    if any. *)
Definition seq_result (json_load : str → option seq_data)
    (o : option str) : result seq_data :=
  match o with
  | None => Raise FileNotFoundError
  | Some text =>
    match json_load (universal_newlines text) with
    | Some sd => Ok sd
    | None => Raise JSONDecodeError
    end
  end.

Definition pict_result (csv_reader : str → option (list (list str)))
    (o : option str) : result pict :=
  match o with
  | None => Ok empty_pict
  | Some text =>
    match csv_reader text with
    | None => Raise CsvError
    | Some rs => Ok (match DictReader rs with r :: _ => r | [] => empty_pict end)
    end
  end.

Definition decision_result (o : option str) : result (str * list str) :=
  match o with
  | None => Ok (lit "UNKNOWN", [])
  | Some text => decision_of_text (universal_newlines text)
  end.

(** The files a run writes, in the order of the writes. *)
Definition artifacts (sd : seq_data) (p : pict) (decision : str)
    (rationale : list str) : list (string * str) :=
  let txt12 := make_12key sd p decision rationale in
  let txt7 := main_txt7 sd p decision rationale in
  let i12 := default 0%nat (index (lit "Dual Reading:") txt12) in
  let i7 := default 0%nat (index (lit "Spiritual Parallel:") txt7) in
  [(OUT_12, render txt12);
   (OUT_7, render txt7);
   (OUT_12_LAB, render_layer (take i12 txt12));
   (OUT_12_SPIR, render_layer (drop (i12 + 1) txt12));
   (OUT_12_MERGE, render (merge (take i12 txt12) (drop (i12 + 1) txt12)));
   (OUT_12_TRANSL, render txt12);
   (OUT_7_LAB, render_layer (take i7 txt7));
   (OUT_7_SPIR, render_layer (drop (i7 + 1) txt7));
   (OUT_7_MERGE, render (merge (take i7 txt7) (drop (i7 + 1) txt7)));
   (OUT_7_TRANSL, render txt7)].

Definition write_all (σ : fs) (files : list (string * str)) : fs :=
  foldl (λ m kv, <[kv.1 := kv.2]> m) σ files.

(** The writes of a run, each with the answer of its encoding: UTF-8 for
    the two full frames, the locale's for the eight other files. *)
Definition writes (locale_encodable : str → bool) (sd : seq_data) (p : pict)
    (decision : str) (rationale : list str) : list (bool * (string * str)) :=
  zip_with (λ encodable file, (encodable file.2, file))
    [utf8_encodable; utf8_encodable;
     locale_encodable; locale_encodable; locale_encodable; locale_encodable;
     locale_encodable; locale_encodable; locale_encodable; locale_encodable]
    (artifacts sd p decision rationale).

(** Writing in turn, up to the first text its encoding has not. *)
Fixpoint run_writes (σ : fs) (ws : list (bool * (string * str)))
    : fs * result unit :=
  match ws with
  | [] => (σ, Ok tt)
  | (encodable, file) :: rest =>
    if encodable then run_writes (<[file.1 := file.2]> σ) rest
    else (<[file.1 := []]> σ, Raise UnicodeEncodeError)
  end.

(** The files such a sequence of writes leaves: the texts written, and
    the empty file of the write that failed, if any. *)
Fixpoint performed (ws : list (bool * (string * str))) : list (string * str) :=
  match ws with
  | [] => []
  | (encodable, file) :: rest =>
    if encodable then file :: performed rest else [(file.1, [])]
  end.

Definition INPUT_PATHS : list string := [SEQ_PATH; PICT_PATH; DEC_PATH].

Definition OUTPUT_PATHS : list string :=
  [OUT_12; OUT_7; OUT_12_LAB; OUT_12_SPIR; OUT_12_MERGE; OUT_12_TRANSL;
   OUT_7_LAB; OUT_7_SPIR; OUT_7_MERGE; OUT_7_TRANSL].

(** Parsers used to exercise the orchestrator: the rows [csv.reader]
    yields on a table without quoted fields, and [json.load] on the
    documents [{}] and [{"operator_histogram": [["daiin", 12]]}] written
    without blanks (other texts are rejected). *)
Fixpoint split_on (c : N) (cur s : str) : list str :=
  match s with
  | [] => [reverse cur]
  | x :: r => if x =? c then reverse cur :: split_on c [] r
              else split_on c (x :: cur) r
  end.

Definition plain_csv_reader (text : str) : option (list (list str)) :=
  Some ((λ line, match line with [] => [] | _ => split_on 0x2C [] line end)
          <$> splitlines text).

Definition small_json_load (text : str) : option seq_data :=
  if decide (text = lit "{}") then Some (SeqData None)
  else if decide (text = [0x7B; 0x22] ++ lit "operator_histogram" ++ [0x22]
                         ++ lit ": [[" ++ [0x22] ++ lit "daiin" ++ [0x22]
                         ++ lit ", 12]]}")
  then Some (SeqData (Some [(lit "daiin", 12%Z)]))
  else None.

Definition table_example : str :=
  lit "roots_count,leaf_pairs_count,bud_count" ++ [0x0A; 0x0A]
  ++ lit "1,4,2" ++ [0x0A] ++ lit "9,9,9" ++ [0x0A].

(** A text without line boundary. *)
Definition one_line (s : str) : bool := forallb (λ c, negb (islinebreak c)) s.

(** A frame has a rationale line. *)
Definition has_rationale_line (frame : list str) : bool :=
  existsb (startswith (lit "Decision rationale: ")) frame.

(** The exceptions a loader of [main] can raise. *)
Definition loader_exn (e : exn) : bool :=
  match e with
  | FileNotFoundError | JSONDecodeError | CsvError => true
  | _ => false
  end.

End Spec.

(** ** Checks of the string layer *)

Example lit_ascii : lit "a-b" = [0x61; 0x2D; 0x62].
Proof. reflexivity. Qed.

Example lit_dash : lit "—" = [0x2014].
Proof. reflexivity. Qed.

Example OPS_code_points :
  PatternRecog.OPS =
  [[0x108]; [0x15C]; [0x42; 0x302]; [0x52; 0x302]; [0x45]; [0x46]; [0x54];
   [0x48]; [0x44]; [0x4D]; [0x58]; [0x4E]].
Proof. reflexivity. Qed.

Example splitlines_ex :
  splitlines (lit "a" ++ [0x0D; 0x0A] ++ lit "b" ++ [0x0A; 0x0A] ++ lit "c" ++ [0x0A])
  = [lit "a"; lit "b"; []; lit "c"].
Proof. reflexivity. Qed.

Example strip_ex : strip (lit "  x y " ++ [0xA0]) = lit "x y".
Proof. reflexivity. Qed.

Example strip_chars_ex : strip_chars (lit "- ") (lit "- a-b --") = lit "a-b".
Proof. reflexivity. Qed.

Example split1_ex :
  split1 (lit ":") (lit "Decision: a:b") = [lit "Decision"; lit " a:b"].
Proof. reflexivity. Qed.

Example of_Z_ex : of_Z 0 = lit "0" ∧ of_Z (-12) = lit "-12" ∧ of_Z 305 = lit "305".
Proof. repeat split; reflexivity. Qed.

Example operators_detected_ex :
  PatternRecog.operators_detected (lit "NEXT: B̂ then Ĉ, E again E")
  = [lit "Ĉ"; lit "B̂"; lit "E"; lit "T"; lit "X"; lit "N"].
Proof. vm_compute. reflexivity. Qed.

(** ** Lemmas on the string layer *)

Section StrLemmas.

Lemma startswith_prefix (p s : str) :
  startswith p s = true ↔ ∃ post, s = p ++ post.
Proof.
  revert s. induction p as [|a p IH]; intros s; simpl.
  - split; [intros _; by exists s | done].
  - destruct s as [|b s].
    + split; [done | intros [post H]; discriminate].
    + rewrite andb_true_iff, N.eqb_eq, IH. split.
      * intros [-> [post ->]]. by exists post.
      * intros [post H]. injection H as -> ->. eauto.
Qed.

Lemma find_Some_occurs (sub s : str) (i : nat) :
  find sub s = Some i → ∃ post, s = take i s ++ sub ++ post.
Proof.
  revert i. induction s as [|c s IH]; intros i; simpl.
  - destruct (startswith sub []) eqn:E; [|done].
    intros [= <-]. simpl. by apply startswith_prefix.
  - destruct (startswith sub (c :: s)) eqn:E.
    + intros [= <-]. simpl. by apply startswith_prefix.
    + destruct (find sub s) as [j|] eqn:F; [|done].
      simpl. intros [= <-]. destruct (IH j eq_refl) as [post H].
      exists post. simpl. by rewrite <- H.
Qed.

Lemma find_None_absent (sub s : str) :
  find sub s = None → ∀ pre post, s ≠ pre ++ sub ++ post.
Proof.
  induction s as [|c s IH]; simpl.
  - destruct (startswith sub []) eqn:E; [done|]. intros _ pre post H.
    destruct pre; [|done]. simpl in H.
    assert (startswith sub [] = true) by (apply startswith_prefix; eauto).
    congruence.
  - destruct (startswith sub (c :: s)) eqn:E; [done|].
    destruct (find sub s) eqn:F; [done|]. intros _ pre post H.
    destruct pre as [|c' pre]; simpl in H.
    + assert (startswith sub (c :: s) = true) by (apply startswith_prefix; eauto).
      congruence.
    + injection H as -> H. by apply (IH eq_refl pre post).
Qed.

(** [sub in s] holds exactly when [sub] occurs as a substring. *)
Lemma contains_substring (sub s : str) :
  contains sub s = true ↔ ∃ pre post, s = pre ++ sub ++ post.
Proof.
  unfold contains. destruct (find sub s) as [i|] eqn:F.
  - split; [intros _ | done].
    destruct (find_Some_occurs _ _ _ F) as [post H]. eauto.
  - split; [done|]. intros (pre & post & H).
    by destruct (find_None_absent _ _ F pre post).
Qed.

Lemma find_first_single (a : N) (pre post : str) :
  a ∉ pre → find [a] (pre ++ (a :: post)) = Some (length pre).
Proof.
  induction pre as [|c pre IH]; intros Hn; simpl.
  - by rewrite N.eqb_refl.
  - apply not_elem_of_cons in Hn as [Hne Hn].
    destruct (a =? c) eqn:E; [apply N.eqb_eq in E; done|].
    simpl. by rewrite IH.
Qed.

Lemma index_Some (x : str) (xs : list str) (i : nat) :
  index x xs = Some i →
  xs = take i xs ++ (x :: drop (S i) xs) ∧ x ∉ take i xs.
Proof.
  revert i. induction xs as [|y xs IH]; intros i; simpl; [done|].
  destruct (decide (y = x)) as [->|Hne].
  - intros [= <-]. simpl. split; [done | apply not_elem_of_nil].
  - destruct (index x xs) as [j|] eqn:E; [|done]. simpl. intros [= <-].
    destruct (IH j eq_refl) as [H1 H2]. simpl. split.
    + by rewrite <- H1.
    + apply not_elem_of_cons. split; [congruence | done].
Qed.

Lemma index_is_Some (x : str) (xs : list str) :
  x ∈ xs → is_Some (index x xs).
Proof.
  induction xs as [|y xs IH]; [by intros ?%elem_of_nil|].
  intros [->|H]%elem_of_cons; simpl.
  - rewrite decide_True by done. eauto.
  - destruct (decide (y = x)); [eauto|].
    destruct (IH H) as [j ->]. simpl. eauto.
Qed.

Lemma index_app_notin (x : str) (pre xs : list str) :
  x ∉ pre → index x (pre ++ (x :: xs)) = Some (length pre).
Proof.
  induction pre as [|y pre IH]; intros Hn; simpl.
  - by rewrite decide_True.
  - apply not_elem_of_cons in Hn as [Hne Hn].
    rewrite decide_False by congruence. by rewrite IH.
Qed.

End StrLemmas.

(** ** The operator scan *)

Module PatternRecogFacts.
Import PatternRecog.

Lemma OPS_NoDup : NoDup OPS.
Proof. apply (bool_decide_unpack _). vm_compute. exact I. Qed.

(** C10. [analyze(text)] reports in [operators_detected] exactly the
    symbols of [OPS] that occur as substrings of [text], in the order of
    [OPS] whatever their order and number of occurrences in [text], each
    one once. *)
Theorem operators_detected_spec (text : str) :
  (∀ op, op ∈ operators_detected text ↔
         op ∈ OPS ∧ ∃ pre post, text = pre ++ op ++ post)
  ∧ operators_detected text `sublist_of` OPS
  ∧ NoDup (operators_detected text).
Proof.
  unfold operators_detected. split; [|split].
  - intros op. rewrite list_elem_of_filter, Is_true_true, contains_substring.
    tauto.
  - apply sublist_filter.
  - apply NoDup_filter, OPS_NoDup.
Qed.

End PatternRecogFacts.

(** ** Frames and their markers *)

Module FrameFacts.
Import Translator Spec.
Local Open Scope nat_scope.

Lemma occurrences_app x xs ys :
  occurrences x (xs ++ ys) = occurrences x xs + occurrences x ys.
Proof. unfold occurrences. by rewrite filter_app, length_app. Qed.

Lemma occurrences_notin x xs : x ∉ xs → occurrences x xs = 0.
Proof.
  unfold occurrences. induction xs as [|y xs IH]; [done|].
  intros [Hne Hn]%not_elem_of_cons.
  rewrite filter_cons_False by congruence. auto.
Qed.

Lemma occurrences_zero x xs : occurrences x xs = 0 → x ∉ xs.
Proof.
  unfold occurrences. intros H Hin.
  assert (x ∈ filter (λ y, y = x) xs) as Hf by (by apply list_elem_of_filter).
  destruct (filter (λ y, y = x) xs); [by apply elem_of_nil in Hf | done].
Qed.

Lemma occurrences_cons_eq x xs : occurrences x (x :: xs) = S (occurrences x xs).
Proof. unfold occurrences. by rewrite filter_cons_True. Qed.

(** The frames are a header followed by the fixed body. *)
Lemma make_12key_shape sd p decision rationale :
  make_12key sd p decision rationale =
  [lit "Translation of f1r — Twelve Keys (Allegorical)"; lit "—"; snapshot p sd]
  ++ rationale_lines rationale ++ [empty] ++ body_12key.
Proof. unfold make_12key. by destruct rationale. Qed.

Lemma make_7step_shape sd p decision rationale :
  make_7step sd p decision rationale =
  [lit "Translation of f1r — Seven-Step Operator Cycle"; lit "—"; snapshot p sd]
  ++ rationale_lines rationale ++ [empty] ++ body_7step.
Proof. unfold make_7step. by destruct rationale. Qed.

Lemma snapshot_head p sd :
  ∃ rest, snapshot p sd = 0x53%N :: 0x6E%N :: rest.
Proof.
  unfold snapshot. destruct (phrase_counts p) as [[[[? ?] ?] ?] ?].
  eexists. reflexivity.
Qed.

Lemma rationale_line_head rationale :
  ∀ l, l ∈ rationale_lines rationale → ∃ rest, l = 0x44%N :: 0x65%N :: rest.
Proof.
  intros l. destruct rationale as [|r rs]; simpl.
  - by intros ?%elem_of_nil.
  - intros ->%list_elem_of_singleton. eexists. reflexivity.
Qed.

Lemma header_12key_no_marker p sd rationale :
  lit "Dual Reading:" ∉
    [lit "Translation of f1r — Twelve Keys (Allegorical)"; lit "—"; snapshot p sd]
    ++ rationale_lines rationale ++ [empty] ++ [lit "Step 1 — Vessel & Naming" ++ empty].
Proof.
  rewrite !not_elem_of_app, !not_elem_of_cons. repeat split;
    try apply not_elem_of_nil; try (vm_compute; discriminate).
  intros H. destruct (rationale_line_head _ _ H) as [rest E].
  vm_compute in E. discriminate.
Qed.

Lemma header_7step_no_marker p sd rationale :
  lit "Spiritual Parallel:" ∉
    [lit "Translation of f1r — Seven-Step Operator Cycle"; lit "—"; snapshot p sd]
    ++ rationale_lines rationale ++ [empty]
    ++ take 1 body_7step.
Proof.
  rewrite !not_elem_of_app, !not_elem_of_cons. repeat split;
    try apply not_elem_of_nil; try (vm_compute; discriminate);
    try (apply (bool_decide_unpack _); vm_compute; exact I).
  intros H. destruct (rationale_line_head _ _ H) as [rest E].
  vm_compute in E. discriminate.
Qed.

Lemma body_12key_split :
  body_12key = [lit "Step 1 — Vessel & Naming" ++ empty]
               ++ (lit "Dual Reading:" :: drop 2 body_12key).
Proof. reflexivity. Qed.

Lemma body_7step_split :
  body_7step = take 1 body_7step ++ (lit "Spiritual Parallel:" :: drop 2 body_7step).
Proof. reflexivity. Qed.

Lemma tail_12key_no_marker : lit "Dual Reading:" ∉ drop 2 body_12key.
Proof. apply (bool_decide_unpack _). vm_compute. exact I. Qed.

Lemma tail_7step_no_marker : lit "Spiritual Parallel:" ∉ drop 2 body_7step.
Proof. apply (bool_decide_unpack _). vm_compute. exact I. Qed.

Lemma make_12key_split sd p decision rationale :
  ∃ head, make_12key sd p decision rationale
          = head ++ (lit "Dual Reading:" :: drop 2 body_12key)
        ∧ (lit "Dual Reading:" ∉ head)
        ∧ length head = marker_pos rationale.
Proof.
  eexists. split; [|split].
  - rewrite make_12key_shape. rewrite body_12key_split at 1.
    rewrite !(assoc_L (++)). reflexivity.
  - rewrite <- !(assoc_L (++)). apply header_12key_no_marker.
  - rewrite !length_app. simpl. unfold marker_pos. lia.
Qed.

Lemma make_7step_split sd p decision rationale :
  ∃ head, make_7step sd p decision rationale
          = head ++ (lit "Spiritual Parallel:" :: drop 2 body_7step)
        ∧ (lit "Spiritual Parallel:" ∉ head)
        ∧ length head = marker_pos rationale.
Proof.
  eexists. split; [|split].
  - rewrite make_7step_shape. rewrite body_7step_split at 1.
    rewrite !(assoc_L (++)). reflexivity.
  - rewrite <- !(assoc_L (++)). apply header_7step_no_marker.
  - rewrite !length_app. simpl. unfold marker_pos. lia.
Qed.

Lemma index_make_12key sd p decision rationale :
  index (lit "Dual Reading:") (make_12key sd p decision rationale)
  = Some (marker_pos rationale).
Proof.
  destruct (make_12key_split sd p decision rationale) as (head & -> & Hn & <-).
  by apply index_app_notin.
Qed.

Lemma index_make_7step sd p decision rationale :
  index (lit "Spiritual Parallel:") (make_7step sd p decision rationale)
  = Some (marker_pos rationale).
Proof.
  destruct (make_7step_split sd p decision rationale) as (head & -> & Hn & <-).
  by apply index_app_notin.
Qed.

(** C4. Every frame an assembler produces holds its marker line exactly
    once, as a whole line: [Dual Reading:] in the twelve-key frame and
    [Spiritual Parallel:] in the seven-step frame.  Neither the snapshot
    line nor the rationale line, which are the interpolated ones, can be
    equal to a marker. *)
Theorem frames_hold_marker_once sd p decision rationale :
  occurrences (lit "Dual Reading:") (make_12key sd p decision rationale) = 1
  ∧ occurrences (lit "Spiritual Parallel:") (make_7step sd p decision rationale) = 1
  ∧ (snapshot p sd ∉ [lit "Dual Reading:"; lit "Spiritual Parallel:"])
  ∧ ∀ l, l ∈ rationale_lines rationale →
         l ∉ [lit "Dual Reading:"; lit "Spiritual Parallel:"].
Proof.
  split; [|split; [|split]].
  - destruct (make_12key_split sd p decision rationale) as (head & -> & Hn & _).
    rewrite occurrences_app, occurrences_cons_eq.
    rewrite (occurrences_notin _ head) by done.
    by rewrite (occurrences_notin _ _ tail_12key_no_marker).
  - destruct (make_7step_split sd p decision rationale) as (head & -> & Hn & _).
    rewrite occurrences_app, occurrences_cons_eq.
    rewrite (occurrences_notin _ head) by done.
    by rewrite (occurrences_notin _ _ tail_7step_no_marker).
  - destruct (snapshot_head p sd) as [rest ->].
    rewrite !not_elem_of_cons. repeat split; try apply not_elem_of_nil;
      vm_compute; discriminate.
  - intros l Hl. destruct (rationale_line_head _ _ Hl) as [rest ->].
    rewrite !not_elem_of_cons. repeat split; try apply not_elem_of_nil;
      vm_compute; discriminate.
Qed.

Lemma frames_hold_marker_once_witness :
  let rationale := [lit "Dual Reading:"; lit "Spiritual Parallel:"] in
  occurrences (lit "Dual Reading:")
    (make_12key (SeqData None) empty_pict (lit "Dual Reading:") rationale) = 1
  ∧ lit "Decision rationale: Dual Reading:; Spiritual Parallel:"
      ∉ [lit "Dual Reading:"; lit "Spiritual Parallel:"].
Proof.
  intros rationale.
  destruct (frames_hold_marker_once (SeqData None) empty_pict
              (lit "Dual Reading:") rationale) as (H12 & _ & _ & Hr).
  split; [exact H12|]. apply Hr. apply list_elem_of_singleton. reflexivity.
Defined.

(** Splitting any list of lines at the first occurrence of a marker it
    holds, as [main] does with [index] and two slices: the list is the
    head, the marker line, the tail; the marker is not a line of the head,
    nor of the tail when the list holds it once; and the two lengths and
    the marker line add up to the length of the list. *)
Lemma split_at_marker (frame : list str) (marker : str) :
  marker ∈ frame →
  ∃ i, index marker frame = Some i
     ∧ frame !! i = Some marker
     ∧ frame = take i frame ++ (marker :: drop (i + 1) frame)
     ∧ (marker ∉ take i frame)
     ∧ (occurrences marker frame = 1 → marker ∉ drop (i + 1) frame)
     ∧ length (take i frame) + 1 + length (drop (i + 1) frame) = length frame.
Proof.
  intros Hin. destruct (index_is_Some _ _ Hin) as [i Hi]. exists i.
  destruct (index_Some _ _ _ Hi) as [Hsplit Hhead].
  replace (i + 1) with (S i) by lia.
  assert (i < length frame) as Hlt.
  { destruct (decide (i < length frame)) as [|Hge]; [done|].
    rewrite take_ge, drop_ge in Hsplit by lia.
    apply (f_equal length) in Hsplit. rewrite length_app in Hsplit.
    simpl in Hsplit. lia. }
  repeat split; try done.
  - rewrite Hsplit at 1. rewrite lookup_app_r by (rewrite length_take; lia).
    rewrite length_take. by replace (i - i `min` length frame) with 0 by lia.
  - intros Hocc. rewrite Hsplit in Hocc.
    rewrite occurrences_app, occurrences_cons_eq in Hocc.
    apply occurrences_zero. lia.
  - rewrite length_take, length_drop. lia.
Qed.

Lemma split_at_marker_witness :
  let frame := make_7step (SeqData None) empty_pict (lit "UNKNOWN") [] in
  ∃ i, index (lit "Spiritual Parallel:") frame = Some i
     ∧ frame !! i = Some (lit "Spiritual Parallel:")
     ∧ frame = take i frame ++ (lit "Spiritual Parallel:" :: drop (i + 1) frame)
     ∧ (lit "Spiritual Parallel:" ∉ take i frame)
     ∧ (occurrences (lit "Spiritual Parallel:") frame = 1 →
        lit "Spiritual Parallel:" ∉ drop (i + 1) frame)
     ∧ length (take i frame) + 1 + length (drop (i + 1) frame) = length frame.
Proof.
  intros frame. apply (split_at_marker frame (lit "Spiritual Parallel:")).
  apply (bool_decide_unpack _). vm_compute. exact I.
Defined.

Lemma drop_past_marker (head tail : list str) (marker : str) (i : nat) :
  length head = i → drop (i + 1) (head ++ (marker :: tail)) = tail.
Proof.
  intros <-. change (marker :: tail) with ([marker] ++ tail).
  rewrite (assoc_L (++)).
  replace (length head + 1) with (length (head ++ [marker]))
    by (rewrite length_app; simpl; lia).
  apply drop_app_length.
Qed.

(** The two layers [main] cuts out of an assembled frame: the marker is
    in neither. *)
Lemma assembled_layers_without_marker sd p decision rationale :
  let i := marker_pos rationale in
  (lit "Dual Reading:" ∉ take i (make_12key sd p decision rationale))
  ∧ (lit "Dual Reading:" ∉ drop (i + 1) (make_12key sd p decision rationale))
  ∧ (lit "Spiritual Parallel:" ∉ take i (make_7step sd p decision rationale))
  ∧ (lit "Spiritual Parallel:"
       ∉ drop (i + 1) (make_7step sd p decision rationale)).
Proof.
  intros i. unfold i.
  destruct (make_12key_split sd p decision rationale) as (h12 & -> & H12 & E12).
  destruct (make_7step_split sd p decision rationale) as (h7 & -> & H7 & E7).
  rewrite !drop_past_marker by done.
  rewrite <- E12 at 1. rewrite <- E7. rewrite !take_app_length.
  auto using tail_12key_no_marker, tail_7step_no_marker.
Qed.

End FrameFacts.


(** ** The merge of two layers *)

Module MergeFacts.
Import Translator Spec.
Local Open Scope nat_scope.

Lemma merge_step (merged : list str) (op sp : str) :
  (if nonempty (strip op) && nonempty (strip sp) then
     merged ++ [strip op ++ lit " / " ++ strip sp]
   else if nonempty (strip op) then merged ++ [strip op]
   else merged)
  = merged ++ option_list (merged_line op sp).
Proof.
  unfold merged_line, blank.
  destruct (nonempty (strip op)), (nonempty (strip sp)); simpl;
    by rewrite ?app_nil_r.
Qed.

Lemma merge_loop (pairs : list (str * str)) (merged : list str) :
  foldl (λ merged pair,
           let op := pair.1 in
           let sp := pair.2 in
           if nonempty (strip op) && nonempty (strip sp) then
             merged ++ [strip op ++ lit " / " ++ strip sp]
           else if nonempty (strip op) then merged ++ [strip op]
           else merged) merged pairs
  = merged ++ omap (λ pair, merged_line pair.1 pair.2) pairs.
Proof.
  revert merged. induction pairs as [|[op sp] pairs IH]; intros merged; simpl.
  - by rewrite app_nil_r.
  - rewrite IH, merge_step. rewrite <- (assoc_L (++)). f_equal.
    by destruct (merged_line op sp).
Qed.

Lemma merge_omap (head tail : list str) :
  merge head tail = omap (λ pair, merged_line pair.1 pair.2) (zip head tail).
Proof. unfold merge. by rewrite merge_loop. Qed.

(** C1, as the code has it. The merged lines are, in order, what the
    positional pairs of [zip(head, tail)] give: two non-blank lines give
    their trimmed texts joined by [" / "]; a non-blank head line with a
    blank tail line gives the trimmed head line alone; a blank head line
    gives no merged line, whatever the tail line. *)
Theorem merge_spec (head tail : list str) :
  merge head tail = omap (λ pair, merged_line pair.1 pair.2) (zip head tail)
  ∧ (∀ i op sp, head !! i = Some op → tail !! i = Some sp →
       (blank op = false → blank sp = false →
          strip op ++ lit " / " ++ strip sp ∈ merge head tail)
       ∧ (blank op = false → blank sp = true → strip op ∈ merge head tail))
  ∧ (∀ l, l ∈ merge head tail →
       ∃ i op sp, head !! i = Some op ∧ tail !! i = Some sp
                  ∧ blank op = false
                  ∧ l = if blank sp then strip op
                        else strip op ++ lit " / " ++ strip sp).
Proof.
  split; [apply merge_omap | split].
  - intros i op sp Hop Hsp.
    assert ((op, sp) ∈ zip head tail) as Hin.
    { apply list_elem_of_lookup. exists i.
      rewrite lookup_zip_with, Hop. simpl. by rewrite Hsp. }
    rewrite merge_omap. split; intros Hb1 Hb2; apply list_elem_of_omap;
      exists (op, sp); (split; [done|]); unfold merged_line; simpl;
      by rewrite Hb1, Hb2.
  - intros l. rewrite merge_omap. intros ([op sp] & Hin & Hl)%list_elem_of_omap.
    apply list_elem_of_lookup in Hin as [i Hi].
    rewrite lookup_zip_with in Hi.
    destruct (head !! i) as [op'|] eqn:Hop; [|done]. simpl in Hi.
    destruct (tail !! i) as [sp'|] eqn:Hsp; [|done]. simpl in Hi.
    injection Hi as -> ->. exists i, op, sp.
    unfold merged_line in Hl. simpl in Hl.
    destruct (blank op); [done|].
    split; [done | split; [done | split; [done|]]].
    by destruct (blank sp); injection Hl as <-.
Qed.

Lemma merge_spec_witness :
  let head := [lit "Title"; lit "  kept "; empty; empty] in
  let tail := [lit "first"; empty; lit "lost"; empty] in
  lit "Title / first" ∈ merge head tail ∧ lit "kept" ∈ merge head tail.
Proof.
  intros head tail.
  destruct (merge_spec head tail) as (_ & Hpairs & _). split.
  - apply (Hpairs 0%nat (lit "Title") (lit "first")); reflexivity.
  - apply (Hpairs 1%nat (lit "  kept ") empty); reflexivity.
Defined.

(** C1, as stated, fails on the seven-step frame of an empty summary, an
    empty histogram and no rationale: the pair at position 3 is a blank
    head line and a non-blank tail line, and that tail line is not in the
    merged output. *)
Lemma merge_drops_tail_only_line :
  let frame := make_7step (SeqData None) empty_pict (lit "UNKNOWN") [] in
  let head := take 5 frame in
  let tail := drop (5 + 1) frame in
  index (lit "Spiritual Parallel:") frame = Some 5
  ∧ head !! 3 = Some empty
  ∧ tail !! 3 = Some (lit "4) Distilling refines insight; vapor rises, truth condenses.")
  ∧ blank empty = true
  ∧ blank (lit "4) Distilling refines insight; vapor rises, truth condenses.") = false
  ∧ (lit "4) Distilling refines insight; vapor rises, truth condenses."
      ∉ merge head tail)
  ∧ length (merge head tail) = 4.
Proof.
  intros frame head tail. repeat split; try (vm_compute; reflexivity).
  apply (bool_decide_unpack _). vm_compute. exact I.
Qed.

End MergeFacts.

(** ** The counts of the summary *)

Module CountsFacts.
Import Translator Spec.

Lemma get_lookup (p : pict) (key : str) (d : value) :
  get p key d = default d (cells p !! key).
Proof. unfold get. by destruct (cells p !! key). Qed.

(** C5, as the code has it. [phrase_counts] is total. The slots [roots],
    [buds], [bud_state] and [bud_color] are the value of their field when
    the field is present and ["?"] when it is absent.  The slot [leaves] is
    the value of [leaf_groups_count] when that field is present and true (a
    non-empty string); failing that, the value of [leaf_pairs_count] when
    present and true; failing both, ["?"]. *)
Theorem phrase_counts_spec (p : pict) :
  ∃ roots leaves buds bud_state bud_color,
    phrase_counts p = (roots, leaves, buds, bud_state, bud_color)
    ∧ roots = default (PyStr (lit "?")) (cells p !! lit "roots_count")
    ∧ buds = default (PyStr (lit "?")) (cells p !! lit "bud_count")
    ∧ bud_state = default (PyStr (lit "?")) (cells p !! lit "bud_state")
    ∧ bud_color = default (PyStr (lit "?")) (cells p !! lit "bud_colour")
    ∧ (∀ v, cells p !! lit "leaf_groups_count" = Some v → truthy v = true →
            leaves = v)
    ∧ (∀ v, usable (cells p !! lit "leaf_groups_count") = false →
            cells p !! lit "leaf_pairs_count" = Some v → truthy v = true →
            leaves = v)
    ∧ (usable (cells p !! lit "leaf_groups_count") = false →
       usable (cells p !! lit "leaf_pairs_count") = false →
       leaves = PyStr (lit "?")).
Proof.
  eexists _, _, _, _, _. split; [reflexivity|].
  rewrite !get_lookup. repeat split.
  - intros v Hv Ht. rewrite Hv. simpl. unfold py_or at 2. rewrite Ht.
    unfold py_or. by rewrite Ht.
  - intros v Hg Hv Ht. rewrite Hv. simpl. unfold usable in Hg.
    destruct (cells p !! lit "leaf_groups_count") as [g|]; simpl.
    + unfold py_or at 2. rewrite Hg. unfold py_or. by rewrite Ht.
    + unfold py_or at 2. simpl. unfold py_or. by rewrite Ht.
  - intros Hg Hl. unfold usable in Hg, Hl.
    destruct (cells p !! lit "leaf_groups_count") as [g|],
             (cells p !! lit "leaf_pairs_count") as [l|]; simpl;
      unfold py_or; simpl; rewrite ?Hg, ?Hl; simpl; rewrite ?Hl; done.
Qed.

Lemma phrase_counts_spec_witness :
  let p := dict_row [lit "roots_count"; lit "leaf_groups_count"; lit "leaf_pairs_count"]
                    [lit "1"; empty; lit "4"] in
  phrase_counts p
  = (PyStr (lit "1"), PyStr (lit "4"), PyStr (lit "?"), PyStr (lit "?"), PyStr (lit "?")).
Proof.
  intros p.
  destruct (phrase_counts_spec p)
    as (roots & leaves & buds & bs & bc & -> & -> & -> & -> & -> & _ & H & _).
  rewrite (H (PyStr (lit "4"))); vm_compute; reflexivity.
Defined.

(** C5, as stated, fails on the row of a table whose [leaf_groups_count]
    cell is empty: the field is present in the mapping, and the slot takes
    the value of [leaf_pairs_count] instead of the field's own. *)
Lemma leaf_groups_present_not_taken :
  let p := dict_row [lit "leaf_groups_count"; lit "leaf_pairs_count"]
                    [empty; lit "4"] in
  cells p !! lit "leaf_groups_count" = Some (PyStr empty)
  ∧ leaves_of (phrase_counts p) = PyStr (lit "4")
  ∧ leaves_of (phrase_counts p) ≠ PyStr empty.
Proof.
  intros p. split; [|split].
  - vm_compute. reflexivity.
  - vm_compute. reflexivity.
  - vm_compute. discriminate.
Qed.

End CountsFacts.


(** ** The decision note *)

Module DecisionFacts.
Import Translator Spec.
Local Open Scope nat_scope.

Lemma lower_cons (c : N) (s : str) : lower (c :: s) = lower_cp c ++ lower s.
Proof. reflexivity. Qed.

(** One step of the comparison of a lower-cased text with a plain
    pattern. *)
Lemma startswith_lower_step (a c : N) (pat t : str) :
  plain_pattern (a :: pat) = true →
  startswith (a :: pat) (lower_cp c ++ t) = true
  ↔ ascii_lower c = a ∧ startswith pat t = true.
Proof.
  simpl. rewrite !andb_true_iff, !negb_true_iff, orb_true_iff, negb_true_iff.
  intros ((((Ha & Hup) & Hk) & Hi) & Hrest).
  apply N.ltb_lt in Ha. apply N.eqb_neq in Hk.
  unfold lower_cp, ascii_lower.
  destruct ((0x41 <=? c) && (c <=? 0x5A))%N eqn:Hc; simpl.
  - rewrite andb_true_iff, N.eqb_eq. split; intros [? ?]; split; congruence.
  - destruct (N.eqb_spec c 0x130) as [->|Hn1]; simpl.
    + destruct (N.eqb_spec a 0x69) as [->|Hai]; simpl.
      * destruct Hi as [Hi|Hi]; [done|]. destruct pat as [|b pat]; [done|].
        simpl. simpl in Hrest. rewrite !andb_true_iff in Hrest.
        destruct Hrest as ((((Hb & _) & _) & _) & _). apply N.ltb_lt in Hb.
        destruct (N.eqb_spec b 0x307) as [->|_]; [lia|]. simpl.
        split; [done | intros [? _]; lia].
      * split; [done | intros [? _]; lia].
    + destruct (N.eqb_spec c 0x212A) as [->|Hn2]; simpl.
      * destruct (N.eqb_spec a 0x6B); [done|]. simpl.
        split; [done | intros [? _]; lia].
      * rewrite andb_true_iff, N.eqb_eq.
        split; intros [? ?]; split; congruence.
Qed.

(** [head.lower().startswith(pat)] is the comparison of the first code
    points of [head] with [pat] up to the case of ASCII letters. *)
Lemma startswith_lower (pat s : str) :
  plain_pattern pat = true →
  startswith pat (lower s) = true
  ↔ ∃ kw rest, s = kw ++ rest ∧ ascii_lower <$> kw = pat.
Proof.
  revert s. induction pat as [|a pat IH]; intros s Hp.
  - split; [intros _; by exists [], s | done].
  - assert (plain_pattern pat = true) as Hp'.
    { simpl in Hp. rewrite !andb_true_iff in Hp. tauto. }
    destruct s as [|c s].
    + split; [done|]. intros (kw & rest & H1 & H2).
      destruct kw; simpl in *; discriminate.
    + rewrite lower_cons, startswith_lower_step by done.
      rewrite IH by done. split.
      * intros [<- (kw & rest & -> & <-)]. by exists (c :: kw), rest.
      * intros (kw & rest & H1 & H2). destruct kw as [|c' kw]; [done|].
        rewrite fmap_cons in H2. simpl in H1.
        injection H1 as -> ->. injection H2 as H2 H3. eauto.
Qed.

Lemma lit_decision :
  lit "decision:" = [100; 101; 99; 105; 115; 105; 111; 110; 58]%N.
Proof. reflexivity. Qed.

Lemma lit_colon : lit ":" = [58%N].
Proof. reflexivity. Qed.

Lemma ascii_lower_colon (c : N) : ascii_lower c = 58%N → c = 58%N.
Proof.
  unfold ascii_lower.
  destruct (N.leb_spec 0x41 c), (N.leb_spec c 0x5A); simpl; lia.
Qed.

Lemma ascii_lower_letter (c a : N) : ascii_lower c = a → a ≠ 58%N → c ≠ 58%N.
Proof. intros H Ha ->. vm_compute in H. congruence. Qed.

(** On a first line of the shape [decision: <value>], [split(":", 1)[1]]
    is the text after the keyword. *)
Lemma keyword_value (head v : str) :
  keyword_shape head v → split1 (lit ":") head !! 1 = Some v.
Proof.
  intros (kw & -> & Hkw). rewrite lit_decision in Hkw.
  do 9 (destruct kw as [|? kw]; [discriminate Hkw|]).
  destruct kw; [|discriminate Hkw].
  rewrite !fmap_cons in Hkw.
  injection Hkw as H0 H1 H2 H3 H4 H5 H6 H7 H8.
  apply ascii_lower_colon in H8 as ->.
  unfold split1. rewrite lit_colon.
  change ([n; n0; n1; n2; n3; n4; n5; n6; 58%N] ++ v)
    with ([n; n0; n1; n2; n3; n4; n5; n6] ++ (58%N :: v)).
  rewrite (find_first_single 58%N [n; n0; n1; n2; n3; n4; n5; n6] v).
  - reflexivity.
  - rewrite !not_elem_of_cons. repeat split; try apply not_elem_of_nil;
      apply not_eq_sym; eapply ascii_lower_letter; try eassumption; lia.
Qed.

Lemma keyword_startswith (head : str) :
  startswith (lit "decision:") (lower head) = true ↔ ∃ v, keyword_shape head v.
Proof.
  rewrite startswith_lower by reflexivity. unfold keyword_shape.
  split; intros (x & y & H); eauto.
Qed.

Lemma rationale_loop (lines rationale : list str) :
  foldl (λ rationale ln,
           let ln := strip (strip_chars (lit "- ") ln) in
           if nonempty ln then rationale ++ [ln] else rationale)
        rationale lines
  = rationale ++ omap rationale_item lines.
Proof.
  revert rationale.
  induction lines as [|ln lines IH]; intros rationale; simpl.
  - by rewrite app_nil_r.
  - rewrite IH. unfold rationale_item at 2.
    destruct (nonempty (strip (strip_chars (lit "- ") ln))); [|done].
    by rewrite <- (assoc_L (++)).
Qed.

Lemma decision_of_text_spec (text : str) :
  ∃ dec rationale,
    decision_of_text text = Ok (dec, rationale)
    ∧ (∀ line0 v, splitlines text !! 0 = Some line0 →
                  keyword_shape (strip line0) v → dec = strip v)
    ∧ ((¬ ∃ line0 v, splitlines text !! 0 = Some line0
                     ∧ keyword_shape (strip line0) v) →
       dec = lit "UNKNOWN")
    ∧ rationale = omap rationale_item (drop 1 (splitlines text)).
Proof.
  unfold decision_of_text. destruct (splitlines text) as [|line0 rest].
  - exists (lit "UNKNOWN"), []. split; [done | split; [|done]].
    intros ? ? H. by rewrite lookup_nil in H.
  - rewrite rationale_loop. cbv zeta. rewrite app_nil_l.
    destruct (startswith (lit "decision:") (lower (strip line0))) eqn:E.
    + apply keyword_startswith in E as [v Hv].
      rewrite (keyword_value _ _ Hv).
      exists (strip v), (omap rationale_item rest).
      split; [done | split; [|split; [|done]]].
      * intros ? v' [= <-] Hv'.
        pose proof (keyword_value _ _ Hv) as E1.
        pose proof (keyword_value _ _ Hv') as E2. congruence.
      * intros Hno. destruct Hno. eauto.
    + exists (lit "UNKNOWN"), (omap rationale_item rest).
      split; [done | split; [|done]].
      intros ? v [= <-] Hv.
      assert (startswith (lit "decision:") (lower (strip line0)) = true)
        by (apply keyword_startswith; eauto).
      congruence.
Qed.

Lemma load_decision_eq (path : string) (σ : fs) :
  load_decision path σ
  = (σ, match σ !! path with
        | None => Ok (lit "UNKNOWN", [])
        | Some text => decision_of_text (universal_newlines text)
        end).
Proof.
  unfold load_decision, mbind, M_bind, path_exists, read_text, read_raw,
    mret, M_ret, pure.
  destruct (σ !! path) as [text|] eqn:E; simpl; [|done].
  unfold mbind, M_bind. by rewrite E.
Qed.

(** C6, as the code has it. For a note that exists, [load_decision]
    returns, without raising: as declared value, the trimmed text after the
    keyword when the trimmed first line has the shape [decision: <value>]
    (the keyword in any mix of cases), and [UNKNOWN] otherwise; as
    rationale, in the order of the note and with repetitions kept, one
    item for each later line, namely the line without the hyphens and
    spaces at both of its ends and then trimmed, the lines of which
    nothing is left being skipped. *)
Theorem load_decision_spec (path : string) (σ : fs) (text : str) :
  σ !! path = Some text →
  let lines := splitlines (universal_newlines text) in
  ∃ dec rationale,
    load_decision path σ = (σ, Ok (dec, rationale))
    ∧ (∀ line0 v, lines !! 0 = Some line0 →
                  keyword_shape (strip line0) v → dec = strip v)
    ∧ ((¬ ∃ line0 v, lines !! 0 = Some line0
                     ∧ keyword_shape (strip line0) v) →
       dec = lit "UNKNOWN")
    ∧ rationale = omap rationale_item (drop 1 lines).
Proof.
  intros Hσ lines. rewrite load_decision_eq, Hσ.
  destruct (decision_of_text_spec (universal_newlines text))
    as (dec & rationale & -> & H). by exists dec, rationale.
Qed.

Lemma load_decision_spec_witness :
  load_decision DEC_PATH {[ DEC_PATH := note_example ]}
  = ({[ DEC_PATH := note_example ]},
     Ok (lit "7_STEPS_OPERATOR", [lit "two red buds"; lit "two red buds"])).
Proof.
  destruct (load_decision_spec DEC_PATH {[ DEC_PATH := note_example ]}
              note_example (lookup_singleton_eq _ _))
    as (dec & rationale & -> & Hdec & _ & ->).
  rewrite (Hdec (lit "  DeCiSiOn:  7_STEPS_OPERATOR ") (lit "  7_STEPS_OPERATOR")).
  - reflexivity.
  - reflexivity.
  - exists (lit "DeCiSiOn:"). split; reflexivity.
Defined.

(** C6, as stated, fails on a note whose rationale line ends with a
    hyphen: the code strips hyphens and spaces at both ends of the line,
    the statement only at its start. *)
Lemma rationale_stripped_at_both_ends :
  let text := lit "decision: X" ++ [10%N] ++ lit "- keep going -" in
  load_decision DEC_PATH {[ DEC_PATH := text ]}
  = ({[ DEC_PATH := text ]}, Ok (lit "X", [lit "keep going"]))
  ∧ stated_rationale (drop 1 (splitlines text)) = [lit "keep going -"]
  ∧ [lit "keep going"] ≠ stated_rationale (drop 1 (splitlines text)).
Proof.
  intros text. split; [|split].
  - rewrite load_decision_eq, lookup_singleton_eq. reflexivity.
  - reflexivity.
  - vm_compute. discriminate.
Qed.

(** C8. For a path that does not exist, [load_decision] returns
    [(UNKNOWN, [])]: a value, not an exception, and the store is left as
    it was. *)
Theorem load_decision_missing (path : string) (σ : fs) :
  σ !! path = None →
  load_decision path σ = (σ, Ok (lit "UNKNOWN", [])).
Proof. intros H. by rewrite load_decision_eq, H. Qed.

Lemma load_decision_missing_witness :
  load_decision DEC_PATH ∅ = (∅, Ok (lit "UNKNOWN", [])).
Proof. apply load_decision_missing. apply lookup_empty. Defined.

End DecisionFacts.


(** ** The pictorial summary *)

Module PictFacts.
Import Translator Spec.
Local Open Scope nat_scope.

Lemma main_pict_eq csv_reader (σ : fs) :
  main_pict csv_reader σ = (σ, pict_result csv_reader (σ !! PICT_PATH)).
Proof.
  unfold main_pict, load_pict, mbind, M_bind, path_exists, read_raw,
    mret, M_ret, raise, pict_result.
  destruct (σ !! PICT_PATH) as [text|] eqn:E; simpl; [|done].
  rewrite E. by destruct (csv_reader text).
Qed.

(** [load_pict] on its own raises for a missing file: the guard is the
    caller's. *)
Lemma load_pict_missing csv_reader (path : string) (σ : fs) :
  σ !! path = None → load_pict csv_reader path σ = (σ, Raise FileNotFoundError).
Proof.
  intros E. unfold load_pict, mbind, M_bind, read_raw. by rewrite E.
Qed.

Lemma skip_empty_rows (blanks : list (list str)) (r : list str) more :
  Forall (λ row, row = []) blanks → r ≠ [] →
  filter (λ row, row ≠ []) (blanks ++ r :: more)
  = r :: filter (λ row, row ≠ []) more.
Proof.
  intros Hb Hr. induction Hb as [|b blanks -> _ IH]; simpl.
  - by rewrite filter_cons_True.
  - by rewrite filter_cons_False by (by intros ?).
Qed.

Lemma only_empty_rows (data : list (list str)) :
  Forall (λ row, row = []) data → filter (λ row, row ≠ []) data = [].
Proof.
  intros Hb. induction Hb as [|b blanks -> _ IH]; [done|].
  by rewrite filter_cons_False by (by intros ?).
Qed.

(** C7. The summary [main] loads is empty, and nothing is raised, when the
    table does not exist and when it has a header and no data row (the
    rows after the header, if any, are empty); when there is a data row,
    the summary is the first one read against the header, and the later
    rows are not looked at. *)
Theorem main_pict_spec csv_reader (σ : fs) :
  (σ !! PICT_PATH = None → main_pict csv_reader σ = (σ, Ok empty_pict))
  ∧ (∀ text header data,
       σ !! PICT_PATH = Some text →
       csv_reader text = Some (header :: data) →
       Forall (λ row, row = []) data →
       main_pict csv_reader σ = (σ, Ok empty_pict))
  ∧ (∀ text header blanks row more,
       σ !! PICT_PATH = Some text →
       csv_reader text = Some (header :: blanks ++ row :: more) →
       Forall (λ row, row = []) blanks → row ≠ [] →
       main_pict csv_reader σ = (σ, Ok (dict_row header row))).
Proof.
  rewrite main_pict_eq. unfold pict_result. split; [|split].
  - by intros ->.
  - intros text header data -> -> Hb. simpl. by rewrite only_empty_rows.
  - intros text header blanks row more -> -> Hb Hr. simpl.
    by rewrite skip_empty_rows.
Qed.

Lemma main_pict_spec_witness :
  main_pict plain_csv_reader ∅ = (∅, Ok empty_pict)
  ∧ main_pict plain_csv_reader {[ PICT_PATH := lit "roots_count,bud_count" ++ [10%N] ]}
    = ({[ PICT_PATH := lit "roots_count,bud_count" ++ [10%N] ]}, Ok empty_pict)
  ∧ main_pict plain_csv_reader {[ PICT_PATH := table_example ]}
    = ({[ PICT_PATH := table_example ]},
       Ok (dict_row [lit "roots_count"; lit "leaf_pairs_count"; lit "bud_count"]
                    [lit "1"; lit "4"; lit "2"])).
Proof.
  split; [|split].
  - apply (main_pict_spec plain_csv_reader ∅). apply lookup_empty.
  - eapply (proj1 (proj2 (main_pict_spec plain_csv_reader _))).
    + apply lookup_singleton_eq.
    + reflexivity.
    + constructor.
  - eapply (proj2 (proj2 (main_pict_spec plain_csv_reader _))
              _ _ [[]] _ [[lit "9"; lit "9"; lit "9"]]).
    + apply lookup_singleton_eq.
    + reflexivity.
    + by repeat constructor.
    + discriminate.
Defined.

End PictFacts.


(** ** The orchestrator *)

Module MainFacts.
Import Translator Spec FrameFacts.
Local Open Scope nat_scope.

Lemma write_all_union (σ : fs) (files : list (string * str)) :
  write_all σ files = list_to_map (reverse files) ∪ σ.
Proof.
  unfold write_all. revert σ.
  induction files as [|[k v] files IH]; intros σ; simpl.
  - by rewrite (left_id_L ∅ (∪)).
  - rewrite IH, reverse_cons, list_to_map_app. simpl.
    rewrite <- (assoc_L (∪)). f_equal.
    rewrite insert_empty. by rewrite insert_union_singleton_l.
Qed.

Lemma artifacts_paths sd p decision rationale :
  (artifacts sd p decision rationale).*1 = OUTPUT_PATHS.
Proof. reflexivity. Qed.

Lemma write_all_other (σ : fs) (files : list (string * str)) (path : string) :
  path ∉ files.*1 → write_all σ files !! path = σ !! path.
Proof.
  intros Hn. rewrite write_all_union. apply lookup_union_r.
  apply not_elem_of_list_to_map_1. by rewrite fmap_reverse, elem_of_reverse.
Qed.

Lemma write_all_written (σ1 σ2 : fs) (files : list (string * str))
    (path : string) :
  path ∈ files.*1 → write_all σ1 files !! path = write_all σ2 files !! path.
Proof.
  intros Hin. rewrite !write_all_union.
  destruct ((list_to_map (reverse files) : fs) !! path) as [v|] eqn:E.
  - by rewrite !(lookup_union_Some_l _ _ _ _ E).
  - apply not_elem_of_list_to_map_2 in E. destruct E.
    by rewrite fmap_reverse, elem_of_reverse.
Qed.

Lemma write_all_twice (σ : fs) (files : list (string * str)) :
  write_all (write_all σ files) files = write_all σ files.
Proof.
  rewrite !write_all_union, (assoc_L (∪)). f_equal. apply map_union_idemp.
Qed.

Lemma write_all_lookup (σ : fs) (files : list (string * str))
    (path : string) (content : str) :
  path ∈ files.*1 → write_all σ files !! path = Some content →
  (path, content) ∈ files.
Proof.
  intros Hin. rewrite write_all_union.
  destruct ((list_to_map (reverse files) : fs) !! path) as [v|] eqn:E.
  - rewrite (lookup_union_Some_l _ _ _ _ E). intros [= <-].
    apply elem_of_list_to_map_2 in E. by rewrite elem_of_reverse in E.
  - apply not_elem_of_list_to_map_2 in E. destruct E.
    by rewrite fmap_reverse, elem_of_reverse.
Qed.

Lemma write_all_is_Some (σ : fs) (files : list (string * str))
    (path : string) :
  path ∈ files.*1 → is_Some (write_all σ files !! path).
Proof.
  intros Hin. rewrite write_all_union.
  destruct ((list_to_map (reverse files) : fs) !! path) as [v|] eqn:E.
  - rewrite (lookup_union_Some_l _ _ _ _ E). eauto.
  - apply not_elem_of_list_to_map_2 in E. destruct E.
    by rewrite fmap_reverse, elem_of_reverse.
Qed.

Lemma inputs_not_outputs (path : string) :
  path ∈ INPUT_PATHS → path ∉ OUTPUT_PATHS.
Proof.
  unfold INPUT_PATHS. rewrite !elem_of_cons.
  intros [->|[->|[->|?%elem_of_nil]]]; [| |  |done];
    apply (bool_decide_unpack _); vm_compute; exact I.
Qed.

(** The three values the loaders return depend on the three input files
    only. *)
Lemma main_reads_inputs (σ1 σ2 : fs) :
  (∀ path, path ∈ INPUT_PATHS → σ1 !! path = σ2 !! path) →
  σ1 !! SEQ_PATH = σ2 !! SEQ_PATH ∧ σ1 !! PICT_PATH = σ2 !! PICT_PATH
  ∧ σ1 !! DEC_PATH = σ2 !! DEC_PATH.
Proof.
  intros H. unfold INPUT_PATHS in H.
  repeat split; apply H; rewrite !elem_of_cons; auto.
Qed.

(** A sequence of writes leaves the files of [performed], and returns
    when every text could be encoded. *)
Lemma run_writes_eq (σ : fs) (ws : list (bool * (string * str))) :
  run_writes σ ws
  = (write_all σ (performed ws),
     if forallb fst ws then Ok tt else Raise UnicodeEncodeError).
Proof.
  revert σ. induction ws as [|[[] file] ws IH]; intros σ; [done| |done].
  cbn [run_writes performed forallb fst andb]. by rewrite IH.
Qed.

Lemma performed_all (ws : list (bool * (string * str))) :
  forallb fst ws = true → performed ws = snd <$> ws.
Proof.
  induction ws as [|[[] file] ws IH]; [done| |done].
  cbn [forallb fst andb performed]. intros H. by rewrite (IH H).
Qed.

Lemma performed_paths (ws : list (bool * (string * str))) (path : string) :
  path ∈ (performed ws).*1 → path ∈ (snd <$> ws).*1.
Proof.
  induction ws as [|[[] file] ws IH]; [done| |];
    cbn [performed fmap list_fmap snd fst]; rewrite !elem_of_cons.
  - intros [->|H]; auto.
  - intros [->|H%elem_of_nil]; [auto|done].
Qed.

Lemma writes_files locale_encodable sd p decision rationale :
  snd <$> writes locale_encodable sd p decision rationale
  = artifacts sd p decision rationale.
Proof. reflexivity. Qed.

Lemma performed_outputs locale_encodable sd p decision rationale path :
  path ∈ (performed (writes locale_encodable sd p decision rationale)).*1 →
  path ∈ OUTPUT_PATHS.
Proof.
  intros H%performed_paths. by rewrite writes_files, artifacts_paths in H.
Qed.

Lemma output_paths_NoDup : NoDup OUTPUT_PATHS.
Proof. apply (bool_decide_unpack _). vm_compute. exact I. Qed.

Lemma write_all_get (σ : fs) (files : list (string * str)) (path : string)
    (content : str) :
  NoDup files.*1 → (path, content) ∈ files →
  write_all σ files !! path = Some content.
Proof.
  intros Hnd Hin. rewrite write_all_union. apply lookup_union_Some_l.
  apply elem_of_list_to_map_1.
  - by rewrite fmap_reverse, reverse_Permutation.
  - by apply elem_of_reverse.
Qed.

(** A sequence of writes touches the paths it names only. *)
Lemma run_writes_other (σ : fs) (ws : list (bool * (string * str)))
    (path : string) :
  path ∉ (snd <$> ws).*1 → (run_writes σ ws).1 !! path = σ !! path.
Proof.
  intros Hn. rewrite run_writes_eq. cbn [fst]. apply write_all_other.
  intros H%performed_paths. done.
Qed.

(** The two writes a run starts with, both in UTF-8. *)
Lemma writes_cons locale_encodable sd p decision rationale :
  writes locale_encodable sd p decision rationale
  = (utf8_encodable (render (make_12key sd p decision rationale)),
     (OUT_12, render (make_12key sd p decision rationale)))
    :: (utf8_encodable (render (main_txt7 sd p decision rationale)),
        (OUT_7, render (main_txt7 sd p decision rationale)))
    :: drop 2 (writes locale_encodable sd p decision rationale).
Proof. reflexivity. Qed.

Lemma writes_rest_paths locale_encodable sd p decision rationale :
  (snd <$> drop 2 (writes locale_encodable sd p decision rationale)).*1
  = drop 2 OUTPUT_PATHS.
Proof. reflexivity. Qed.

Lemma artifacts_eq sd p decision rationale (i12 i7 : nat) :
  index (lit "Dual Reading:") (make_12key sd p decision rationale) = Some i12 →
  index (lit "Spiritual Parallel:") (main_txt7 sd p decision rationale)
  = Some i7 →
  let txt12 := make_12key sd p decision rationale in
  let txt7 := main_txt7 sd p decision rationale in
  artifacts sd p decision rationale
  = [(OUT_12, render txt12);
     (OUT_7, render txt7);
     (OUT_12_LAB, render_layer (take i12 txt12));
     (OUT_12_SPIR, render_layer (drop (i12 + 1) txt12));
     (OUT_12_MERGE, render (merge (take i12 txt12) (drop (i12 + 1) txt12)));
     (OUT_12_TRANSL, render txt12);
     (OUT_7_LAB, render_layer (take i7 txt7));
     (OUT_7_SPIR, render_layer (drop (i7 + 1) txt7));
     (OUT_7_MERGE, render (merge (take i7 txt7) (drop (i7 + 1) txt7)));
     (OUT_7_TRANSL, render txt7)].
Proof. intros H12 H7. unfold artifacts. by rewrite H12, H7. Qed.

(** The short frame of a run, cut at the first occurrence of its
    marker. *)
Lemma main_txt7_split sd p decision rationale :
  ∃ head i,
    main_txt7 sd p decision rationale
    = head ++ (lit "Spiritual Parallel:" :: drop 2 body_7step)
    ∧ (lit "Spiritual Parallel:" ∉ head)
    ∧ length head = i
    ∧ index (lit "Spiritual Parallel:") (main_txt7 sd p decision rationale)
      = Some i.
Proof.
  unfold main_txt7. case_decide.
  - destruct (make_7step_split sd p decision rationale) as (h & E & Hn & Hl).
    exists h, (marker_pos rationale).
    by rewrite index_make_7step.
  - destruct (make_7step_split sd p (lit "7_STEPS_OPERATOR (comparative)") [])
      as (h & E & Hn & Hl).
    exists h, (marker_pos []). by rewrite index_make_7step.
Qed.

Section Run.

Variable json_load : str → option seq_data.
Variable csv_reader : str → option (list (list str)).
Variable locale_encodable : str → bool.

Lemma bind_run {A B} (m : M A) (f : A → M B) (σ : fs) :
  (m ≫= f) σ = match m σ with
               | (σ', Ok a) => f a σ'
               | (σ', Raise e) => (σ', Raise e)
               end.
Proof. reflexivity. Qed.

Lemma bind_write {B} (encodable : str → bool) (path : string) (text : str)
    (k : unit → M B) (σ : fs) :
  (write_text encodable path text ≫= k) σ
  = if encodable text then k tt (<[path := text]> σ)
    else (<[path := []]> σ, Raise UnicodeEncodeError).
Proof.
  unfold write_text, mbind, M_bind. by destruct (encodable text).
Qed.

Lemma bind_index {B} (marker : str) (txt : list str) (i : nat)
    (k : nat → M B) (σ : fs) :
  index marker txt = Some i → (index_of marker txt ≫= k) σ = k i σ.
Proof. intros H. unfold index_of. by rewrite H. Qed.

Lemma load_seq_eq (path : string) (σ : fs) :
  load_seq json_load path σ = (σ, seq_result json_load (σ !! path)).
Proof.
  unfold load_seq, read_text, read_raw, seq_result, mbind, M_bind, mret,
    M_ret, raise.
  destruct (σ !! path) as [text|]; [|done].
  by destruct (json_load (universal_newlines text)).
Qed.

Lemma index_main_txt7 sd p decision rationale :
  ∃ i, index (lit "Spiritual Parallel:") (main_txt7 sd p decision rationale)
       = Some i.
Proof.
  unfold main_txt7. case_decide; rewrite index_make_7step; eauto.
Qed.

(** A run of [main]: it stops at the first loader that raises, having
    written nothing; otherwise it goes through its ten writes, up to the
    first text that cannot be encoded. *)
Lemma main_eq (σ : fs) :
  main json_load csv_reader locale_encodable σ =
  match seq_result json_load (σ !! SEQ_PATH) with
  | Raise e => (σ, Raise e)
  | Ok sd =>
    match pict_result csv_reader (σ !! PICT_PATH) with
    | Raise e => (σ, Raise e)
    | Ok p =>
      match decision_result (σ !! DEC_PATH) with
      | Raise e => (σ, Raise e)
      | Ok dr => run_writes σ (writes locale_encodable sd p dr.1 dr.2)
      end
    end
  end.
Proof.
  unfold main. rewrite bind_run, load_seq_eq.
  destruct (seq_result json_load (σ !! SEQ_PATH)) as [sd|e]; [|done].
  rewrite bind_run, PictFacts.main_pict_eq.
  destruct (pict_result csv_reader (σ !! PICT_PATH)) as [p|e]; [|done].
  rewrite bind_run, DecisionFacts.load_decision_eq.
  fold (decision_result (σ !! DEC_PATH)).
  destruct (decision_result (σ !! DEC_PATH)) as [[decision rationale]|e];
    [|done].
  cbv zeta. cbn [fst snd].
  destruct (index_main_txt7 sd p decision rationale) as [i7 H7].
  pose proof (index_make_12key sd p decision rationale) as H12.
  unfold writes, artifacts. cbv zeta. rewrite H12, H7.
  cbn [zip_with run_writes fst snd from_option id].
  repeat (rewrite bind_write; match goal with
          | |- (if ?b then _ else _) = _ => destruct b; [|reflexivity]
          end).
  rewrite (bind_index _ _ _ _ _ H12).
  repeat (rewrite bind_write; match goal with
          | |- (if ?b then _ else _) = _ => destruct b; [|reflexivity]
          end).
  rewrite (bind_index _ _ _ _ _ H7).
  repeat (rewrite bind_write; match goal with
          | |- (if ?b then _ else _) = _ => destruct b; [|reflexivity]
          end).
  unfold write_text.
  match goal with
  | |- (if ?b then _ else _) = _ => destruct b; reflexivity
  end.
Qed.

(** On loaders that return, the store and the result of a run. *)
Lemma main_run (σ : fs) sd p decision rationale :
  seq_result json_load (σ !! SEQ_PATH) = Ok sd →
  pict_result csv_reader (σ !! PICT_PATH) = Ok p →
  decision_result (σ !! DEC_PATH) = Ok (decision, rationale) →
  main json_load csv_reader locale_encodable σ
  = (write_all σ
       (performed (writes locale_encodable sd p decision rationale)),
     if forallb fst (writes locale_encodable sd p decision rationale)
     then Ok tt else Raise UnicodeEncodeError).
Proof.
  intros E1 E2 E3. rewrite main_eq, E1, E2, E3. apply run_writes_eq.
Qed.

(** A run that returns has written the ten artifacts. *)
Lemma main_returns (σ : fs) sd p decision rationale :
  seq_result json_load (σ !! SEQ_PATH) = Ok sd →
  pict_result csv_reader (σ !! PICT_PATH) = Ok p →
  decision_result (σ !! DEC_PATH) = Ok (decision, rationale) →
  (main json_load csv_reader locale_encodable σ).2 = Ok tt →
  main json_load csv_reader locale_encodable σ
  = (write_all σ (artifacts sd p decision rationale), Ok tt).
Proof.
  intros E1 E2 E3. rewrite (main_run σ _ _ _ _ E1 E2 E3). cbn [snd].
  destruct (forallb fst _) eqn:Hall; [|done]. intros _.
  by rewrite (performed_all _ Hall), writes_files.
Qed.

(** C9. The pipeline is a function of its three input documents. Two runs
    on stores that hold the same three documents end alike (both return,
    or both raise the same exception), and when they return every
    artifact has the same content in both stores, whatever else the
    stores held.  Running again on the store a run has left changes
    nothing: the second run ends as the first did and leaves the same
    store; in particular the two merged artifacts are the same texts. *)
Theorem main_deterministic :
  (∀ σ1 σ2 : fs,
     (∀ path, path ∈ INPUT_PATHS → σ1 !! path = σ2 !! path) →
     (main json_load csv_reader locale_encodable σ1).2
     = (main json_load csv_reader locale_encodable σ2).2
     ∧ ((main json_load csv_reader locale_encodable σ1).2 = Ok tt →
        ∀ path, path ∈ OUTPUT_PATHS →
          (main json_load csv_reader locale_encodable σ1).1 !! path
          = (main json_load csv_reader locale_encodable σ2).1 !! path))
  ∧ (∀ σ : fs,
       main json_load csv_reader locale_encodable
         (main json_load csv_reader locale_encodable σ).1
       = main json_load csv_reader locale_encodable σ)
  ∧ (∀ σ : fs, ∀ path, path ∈ [OUT_12_MERGE; OUT_7_MERGE] →
       (main json_load csv_reader locale_encodable
          (main json_load csv_reader locale_encodable σ).1).1 !! path
       = (main json_load csv_reader locale_encodable σ).1 !! path).
Proof.
  assert (∀ σ : fs,
            main json_load csv_reader locale_encodable
              (main json_load csv_reader locale_encodable σ).1
            = main json_load csv_reader locale_encodable σ) as Hagain.
  { intros σ.
    destruct (seq_result json_load (σ !! SEQ_PATH)) as [sd|e] eqn:E1;
      [|by rewrite (main_eq σ), E1; cbn [fst]; rewrite main_eq, E1].
    destruct (pict_result csv_reader (σ !! PICT_PATH)) as [p|e] eqn:E2;
      [|by rewrite (main_eq σ), E1, E2; cbn [fst]; rewrite main_eq, E1, E2].
    destruct (decision_result (σ !! DEC_PATH)) as [[decision rationale]|e]
      eqn:E3;
      [|by rewrite (main_eq σ), E1, E2, E3; cbn [fst];
           rewrite main_eq, E1, E2, E3].
    rewrite (main_run σ _ _ _ _ E1 E2 E3). cbn [fst].
    rewrite (main_run _ sd p decision rationale).
    - by rewrite write_all_twice.
    - rewrite write_all_other; [done|]. intros H%performed_outputs.
      revert H. apply inputs_not_outputs.
      unfold INPUT_PATHS; rewrite !elem_of_cons; auto.
    - rewrite write_all_other; [done|]. intros H%performed_outputs.
      revert H. apply inputs_not_outputs.
      unfold INPUT_PATHS; rewrite !elem_of_cons; auto.
    - rewrite write_all_other; [done|]. intros H%performed_outputs.
      revert H. apply inputs_not_outputs.
      unfold INPUT_PATHS; rewrite !elem_of_cons; auto. }
  split; [|split; [done|]].
  - intros σ1 σ2 Hin.
    destruct (main_reads_inputs σ1 σ2 Hin) as (H1 & H2 & H3).
    destruct (seq_result json_load (σ2 !! SEQ_PATH)) as [sd|e] eqn:E1;
      [|by rewrite !main_eq, H1, E1].
    destruct (pict_result csv_reader (σ2 !! PICT_PATH)) as [p|e] eqn:E2;
      [|by rewrite !main_eq, H1, H2, E1, E2].
    destruct (decision_result (σ2 !! DEC_PATH)) as [[decision rationale]|e]
      eqn:E3;
      [|by rewrite !main_eq, H1, H2, H3, E1, E2, E3].
    rewrite <- H1 in E1. rewrite <- H2 in E2. rewrite <- H3 in E3.
    split.
    + rewrite (main_run σ1 _ _ _ _ E1 E2 E3).
      rewrite H1 in E1. rewrite H2 in E2. rewrite H3 in E3.
      by rewrite (main_run σ2 _ _ _ _ E1 E2 E3).
    + intros Hok path Hpath.
      rewrite (main_returns σ1 _ _ _ _ E1 E2 E3 Hok).
      assert ((main json_load csv_reader locale_encodable σ2).2 = Ok tt)
        as Hok2.
      { rewrite <- Hok. rewrite (main_run σ1 _ _ _ _ E1 E2 E3).
        rewrite H1 in E1. rewrite H2 in E2. rewrite H3 in E3.
        by rewrite (main_run σ2 _ _ _ _ E1 E2 E3). }
      rewrite H1 in E1. rewrite H2 in E2. rewrite H3 in E3.
      rewrite (main_returns σ2 _ _ _ _ E1 E2 E3 Hok2). cbn [fst].
      apply write_all_written. by rewrite artifacts_paths.
  - intros σ path _. by rewrite Hagain.
Qed.

(** A run that returns: its three loaders returned, and it has written
    the ten artifacts. *)
Lemma main_returns_inv (σ : fs) :
  (main json_load csv_reader locale_encodable σ).2 = Ok tt →
  ∃ sd p decision rationale,
    seq_result json_load (σ !! SEQ_PATH) = Ok sd
    ∧ pict_result csv_reader (σ !! PICT_PATH) = Ok p
    ∧ decision_result (σ !! DEC_PATH) = Ok (decision, rationale)
    ∧ main json_load csv_reader locale_encodable σ
      = (write_all σ (artifacts sd p decision rationale), Ok tt).
Proof.
  intros Hok.
  destruct (seq_result json_load (σ !! SEQ_PATH)) as [sd|e] eqn:E1;
    [|by rewrite main_eq, E1 in Hok].
  destruct (pict_result csv_reader (σ !! PICT_PATH)) as [p|e] eqn:E2;
    [|by rewrite main_eq, E1, E2 in Hok].
  destruct (decision_result (σ !! DEC_PATH)) as [[decision rationale]|e]
    eqn:E3; [|by rewrite main_eq, E1, E2, E3 in Hok].
  exists sd, p, decision, rationale.
  split; [done | split; [done | split; [done|]]].
  by apply main_returns.
Qed.

(** When the three loaders return, the long frame is written to [OUT_12]
    if UTF-8 has its text, and the short frame is then written to [OUT_7]
    if UTF-8 has its text; a later write that fails leaves both files as
    they are. *)
Lemma main_frames (σ : fs) sd p decision rationale :
  seq_result json_load (σ !! SEQ_PATH) = Ok sd →
  pict_result csv_reader (σ !! PICT_PATH) = Ok p →
  decision_result (σ !! DEC_PATH) = Ok (decision, rationale) →
  utf8_encodable (render (make_12key sd p decision rationale)) = true →
  (main json_load csv_reader locale_encodable σ).1 !! OUT_12
  = Some (render (make_12key sd p decision rationale))
  ∧ (utf8_encodable (render (main_txt7 sd p decision rationale)) = true →
     (main json_load csv_reader locale_encodable σ).1 !! OUT_7
     = Some (render (main_txt7 sd p decision rationale))).
Proof.
  intros E1 E2 E3 U12. rewrite main_eq, E1, E2, E3. cbn [fst snd].
  rewrite writes_cons, U12. cbn [run_writes fst snd].
  destruct (utf8_encodable (render (main_txt7 sd p decision rationale)))
    eqn:U7.
  - split; [|intros _].
    + rewrite run_writes_other.
      * rewrite lookup_insert_ne by
          (apply (bool_decide_unpack _); vm_compute; exact I).
        apply lookup_insert_eq.
      * rewrite writes_rest_paths.
        apply (bool_decide_unpack _). vm_compute. exact I.
    + rewrite run_writes_other; [apply lookup_insert_eq|].
      rewrite writes_rest_paths.
      apply (bool_decide_unpack _). vm_compute. exact I.
  - split; [|done]. cbn [fst].
    rewrite lookup_insert_ne by
      (apply (bool_decide_unpack _); vm_compute; exact I).
    apply lookup_insert_eq.
Qed.


(** C3. What a run cuts. For each of its two frames a run that returns
    has split the frame at the first occurrence of the marker: the head
    layer holds the lines before the marker, the tail layer the lines
    after it, the marker line is in neither, and the lengths of the two
    layers and the marker line add up to the length of the frame. The
    [labwork] file holds the head layer, the [spirit] file the tail layer
    and the [merged] file their merge. *)
Theorem main_splits_at_marker (σ : fs) sd p decision rationale :
  seq_result json_load (σ !! SEQ_PATH) = Ok sd →
  pict_result csv_reader (σ !! PICT_PATH) = Ok p →
  decision_result (σ !! DEC_PATH) = Ok (decision, rationale) →
  (main json_load csv_reader locale_encodable σ).2 = Ok tt →
  let σ' := (main json_load csv_reader locale_encodable σ).1 in
  (∃ head tail,
     make_12key sd p decision rationale
     = head ++ (lit "Dual Reading:" :: tail)
     ∧ (lit "Dual Reading:" ∉ head) ∧ (lit "Dual Reading:" ∉ tail)
     ∧ length head + 1 + length tail
       = length (make_12key sd p decision rationale)
     ∧ σ' !! OUT_12 = Some (render (make_12key sd p decision rationale))
     ∧ σ' !! OUT_12_LAB = Some (render_layer head)
     ∧ σ' !! OUT_12_SPIR = Some (render_layer tail)
     ∧ σ' !! OUT_12_MERGE = Some (render (merge head tail)))
  ∧ (∃ head tail,
       main_txt7 sd p decision rationale
       = head ++ (lit "Spiritual Parallel:" :: tail)
       ∧ (lit "Spiritual Parallel:" ∉ head)
       ∧ (lit "Spiritual Parallel:" ∉ tail)
       ∧ length head + 1 + length tail
         = length (main_txt7 sd p decision rationale)
       ∧ σ' !! OUT_7 = Some (render (main_txt7 sd p decision rationale))
       ∧ σ' !! OUT_7_LAB = Some (render_layer head)
       ∧ σ' !! OUT_7_SPIR = Some (render_layer tail)
       ∧ σ' !! OUT_7_MERGE = Some (render (merge head tail))).
Proof.
  intros E1 E2 E3 Hok σ'. unfold σ'.
  rewrite (main_returns σ _ _ _ _ E1 E2 E3 Hok). cbn [fst]. clear σ' Hok.
  assert (NoDup (artifacts sd p decision rationale).*1) as Hnd
    by (rewrite artifacts_paths; apply output_paths_NoDup).
  destruct (make_12key_split sd p decision rationale)
    as (h12 & S12 & N12 & L12).
  pose proof (index_make_12key sd p decision rationale) as H12.
  destruct (main_txt7_split sd p decision rationale)
    as (h7 & i7 & S7 & N7 & L7 & H7).
  pose proof (artifacts_eq sd p decision rationale _ _ H12 H7) as Ha.
  cbv zeta in Ha.
  assert (take (marker_pos rationale) (make_12key sd p decision rationale)
          = h12) as T12.
  { rewrite S12, <- L12. apply take_app_length. }
  assert (drop (marker_pos rationale + 1) (make_12key sd p decision rationale)
          = drop 2 body_12key) as D12.
  { rewrite S12. by apply drop_past_marker. }
  assert (take i7 (main_txt7 sd p decision rationale) = h7) as T7.
  { rewrite S7, <- L7. apply take_app_length. }
  assert (drop (i7 + 1) (main_txt7 sd p decision rationale)
          = drop 2 body_7step) as D7.
  { rewrite S7. by apply drop_past_marker. }
  rewrite T12, D12, T7, D7 in Ha.
  assert (∀ path content,
            (path, content) ∈ artifacts sd p decision rationale →
            write_all σ (artifacts sd p decision rationale) !! path
            = Some content) as Hget
    by (intros path content Hin; by apply write_all_get).
  split.
  - exists h12, (drop 2 body_12key).
    split; [exact S12|]. split; [exact N12|].
    split; [exact tail_12key_no_marker|].
    split; [rewrite S12, length_app; simpl; lia|].
    split; [apply Hget; rewrite Ha; by apply (list_elem_of_lookup_2 _ 0)|].
    split; [apply Hget; rewrite Ha; by apply (list_elem_of_lookup_2 _ 2)|].
    split; [apply Hget; rewrite Ha; by apply (list_elem_of_lookup_2 _ 3)|].
    apply Hget; rewrite Ha; by apply (list_elem_of_lookup_2 _ 4).
  - exists h7, (drop 2 body_7step).
    split; [exact S7|]. split; [exact N7|].
    split; [exact tail_7step_no_marker|].
    split; [rewrite S7, length_app; simpl; lia|].
    split; [apply Hget; rewrite Ha; by apply (list_elem_of_lookup_2 _ 1)|].
    split; [apply Hget; rewrite Ha; by apply (list_elem_of_lookup_2 _ 6)|].
    split; [apply Hget; rewrite Ha; by apply (list_elem_of_lookup_2 _ 7)|].
    apply Hget; rewrite Ha; by apply (list_elem_of_lookup_2 _ 8).
Qed.

End Run.

(** The decision argument of the short-frame assembler has no effect on
    the frame: the label of a comparative rendering is not among its
    lines. *)
Lemma make_7step_decision_unused sd p decision decision' rationale :
  make_7step sd p decision rationale = make_7step sd p decision' rationale.
Proof. reflexivity. Qed.

(** A store with the sequence document [{}], no table and a note. *)
Lemma loaders_example (note : str) :
  let σ : fs := {[ SEQ_PATH := lit "{}"; DEC_PATH := note ]} in
  seq_result small_json_load (σ !! SEQ_PATH) = Ok (SeqData None)
  ∧ pict_result plain_csv_reader (σ !! PICT_PATH) = Ok empty_pict
  ∧ decision_result (σ !! DEC_PATH) = decision_of_text (universal_newlines note).
Proof.
  intros σ.
  assert (σ !! SEQ_PATH = Some (lit "{}")) as ->
    by apply lookup_insert_eq.
  assert (σ !! PICT_PATH = None) as ->.
  { unfold σ. rewrite lookup_insert_ne by done.
    by rewrite lookup_singleton_ne. }
  assert (σ !! DEC_PATH = Some note) as ->.
  { unfold σ. rewrite lookup_insert_ne by done. apply lookup_singleton_eq. }
  split; [by vm_compute | split; done].
Qed.

Lemma main_example_returns (note decision : str) (rationale : list str) :
  decision_of_text (universal_newlines note) = Ok (decision, rationale) →
  forallb fst (writes utf8_encodable (SeqData None) empty_pict decision
                 rationale) = true →
  (main small_json_load plain_csv_reader utf8_encodable
     {[ SEQ_PATH := lit "{}"; DEC_PATH := note ]}).2 = Ok tt.
Proof.
  intros Hd Hall. destruct (loaders_example note) as (E1 & E2 & E3).
  rewrite Hd in E3. rewrite (main_run _ _ _ _ _ _ _ _ E1 E2 E3). cbn [snd].
  by rewrite Hall.
Qed.

Lemma main_deterministic_witness :
  let σ1 : fs := {[ SEQ_PATH := lit "{}"; DEC_PATH := note_example ]} in
  let σ2 : fs := <[ OUT_7_MERGE := lit "stale" ]> σ1 in
  (main small_json_load plain_csv_reader utf8_encodable σ1).2 = Ok tt
  ∧ (main small_json_load plain_csv_reader utf8_encodable σ1).2
    = (main small_json_load plain_csv_reader utf8_encodable σ2).2
  ∧ (main small_json_load plain_csv_reader utf8_encodable σ1).1 !! OUT_7_MERGE
    = (main small_json_load plain_csv_reader utf8_encodable σ2).1
        !! OUT_7_MERGE.
Proof.
  intros σ1 σ2.
  destruct (main_deterministic small_json_load plain_csv_reader
              utf8_encodable) as [H _].
  assert (∀ path, path ∈ INPUT_PATHS → σ1 !! path = σ2 !! path) as Hin.
  { intros path Hp. unfold σ2. rewrite lookup_insert_ne; [done|].
    intros <-. revert Hp. apply (bool_decide_unpack _). vm_compute. exact I. }
  destruct (H σ1 σ2 Hin) as [Hr Ho].
  assert ((main small_json_load plain_csv_reader utf8_encodable σ1).2 = Ok tt)
    as Hok.
  { apply (main_example_returns note_example (lit "7_STEPS_OPERATOR")
             [lit "two red buds"; lit "two red buds"]);
      vm_compute; reflexivity. }
  split; [done | split; [done|]]. apply (Ho Hok).
  unfold OUTPUT_PATHS. rewrite !elem_of_cons. tauto.
Defined.


Lemma main_splits_at_marker_witness :
  let σ : fs := {[ SEQ_PATH := lit "{}"; DEC_PATH := note_example ]} in
  let σ' := (main small_json_load plain_csv_reader utf8_encodable σ).1 in
  let frame := make_12key (SeqData None) empty_pict (lit "7_STEPS_OPERATOR")
                 [lit "two red buds"; lit "two red buds"] in
  ∃ head tail,
    frame = head ++ (lit "Dual Reading:" :: tail)
    ∧ (lit "Dual Reading:" ∉ head) ∧ (lit "Dual Reading:" ∉ tail)
    ∧ length head + 1 + length tail = length frame
    ∧ σ' !! OUT_12 = Some (render frame)
    ∧ σ' !! OUT_12_LAB = Some (render_layer head)
    ∧ σ' !! OUT_12_SPIR = Some (render_layer tail)
    ∧ σ' !! OUT_12_MERGE = Some (render (merge head tail)).
Proof.
  intros σ σ' frame.
  destruct (loaders_example note_example) as (E1 & E2 & E3).
  assert (decision_of_text (universal_newlines note_example)
          = Ok (lit "7_STEPS_OPERATOR",
                [lit "two red buds"; lit "two red buds"])) as Hd
    by (vm_compute; reflexivity).
  rewrite Hd in E3.
  assert ((main small_json_load plain_csv_reader utf8_encodable σ).2 = Ok tt)
    as Hok.
  { apply (main_example_returns note_example (lit "7_STEPS_OPERATOR")
             [lit "two red buds"; lit "two red buds"]);
      [exact Hd | vm_compute; reflexivity]. }
  destruct (main_splits_at_marker small_json_load plain_csv_reader
              utf8_encodable _ _ _ _ _ E1 E2 E3 Hok) as [H _].
  exact H.
Defined.

End MainFacts.

(** ** Trimming *)

Module StripFacts.
Local Open Scope nat_scope.

Lemma lstrip_by_head (p : N → bool) (s : str) (c : N) (r : str) :
  lstrip_by p s = c :: r → p c = false.
Proof.
  induction s as [|x s IH]; simpl; [done|].
  destruct (p x) eqn:E; [done|]. by intros [= <- _].
Qed.

Lemma lstrip_by_suffix (p : N → bool) (s : str) :
  ∃ pre, s = pre ++ lstrip_by p s.
Proof.
  induction s as [|x s [pre IH]]; simpl; [by exists []|].
  destruct (p x).
  - exists (x :: pre). simpl. by rewrite <- IH.
  - by exists [].
Qed.

Lemma rstrip_by_prefix (p : N → bool) (s : str) :
  ∃ post, s = rstrip_by p s ++ post.
Proof.
  unfold rstrip_by. destruct (lstrip_by_suffix p (reverse s)) as [pre H].
  exists (reverse pre). rewrite <- reverse_app, <- H. by rewrite reverse_involutive.
Qed.

Lemma rstrip_by_last (p : N → bool) (s r : str) (c : N) :
  rstrip_by p s = r ++ [c] → p c = false.
Proof.
  unfold rstrip_by. intros H. apply (f_equal reverse) in H.
  rewrite reverse_involutive, reverse_app in H. simpl in H.
  by eapply lstrip_by_head.
Qed.

Lemma rstrip_by_keep (p : N → bool) (r : str) (c : N) :
  p c = false → rstrip_by p (r ++ [c]) = r ++ [c].
Proof.
  intros Hc. unfold rstrip_by. rewrite reverse_app, reverse_singleton.
  simpl. rewrite Hc. by rewrite reverse_cons, reverse_involutive.
Qed.

(** The characters of a stripped text are characters of the text. *)
Lemma strip_by_infix (p : N → bool) (s : str) :
  ∃ pre post, s = pre ++ strip_by p s ++ post.
Proof.
  unfold strip_by. destruct (lstrip_by_suffix p s) as [pre H1].
  destruct (rstrip_by_prefix p (lstrip_by p s)) as [post H2].
  exists pre, post. by rewrite <- H2.
Qed.

Lemma strip_by_head (p : N → bool) (s : str) (c : N) (r : str) :
  strip_by p s = c :: r → p c = false.
Proof.
  unfold strip_by. intros H.
  destruct (rstrip_by_prefix p (lstrip_by p s)) as [post H2].
  rewrite H in H2. simpl in H2. by eapply lstrip_by_head.
Qed.

Lemma strip_by_last (p : N → bool) (s r : str) (c : N) :
  strip_by p s = r ++ [c] → p c = false.
Proof. apply rstrip_by_last. Qed.

(** A text that neither starts nor ends with a stripped character is
    left as it is. *)
Lemma strip_by_fixed (p : N → bool) (c c' : N) (mid : str) :
  p c = false → p c' = false →
  strip_by p (c :: mid ++ [c']) = c :: mid ++ [c'].
Proof.
  intros Hc Hc'. unfold strip_by. simpl. rewrite Hc.
  by apply (rstrip_by_keep p (c :: mid) c').
Qed.

Lemma strip_by_single (p : N → bool) (c : N) :
  p c = false → strip_by p [c] = [c].
Proof.
  intros Hc. unfold strip_by. simpl. rewrite Hc.
  by apply (rstrip_by_keep p [] c).
Qed.

Lemma str_ends (s : str) :
  s = [] ∨ (∃ c, s = [c]) ∨ ∃ c mid c', s = c :: mid ++ [c'].
Proof.
  destruct s as [|c s]; [by left | right].
  destruct (decide (s = [])) as [->|Hne]; [left; eauto | right].
  destruct (exists_last Hne) as (mid & c' & ->). eauto.
Qed.

Lemma strip_by_idemp (p : N → bool) (s : str) :
  strip_by p (strip_by p s) = strip_by p s.
Proof.
  destruct (str_ends (strip_by p s)) as [E|[[c E]|(c & mid & c' & E)]].
  - by rewrite E.
  - rewrite E. apply strip_by_single. by eapply strip_by_head.
  - rewrite E. apply strip_by_fixed.
    + by eapply strip_by_head.
    + eapply (strip_by_last p s (c :: mid)). by rewrite E.
Qed.

(** Joining two stripped, non-empty texts around any text gives a
    stripped text. *)
Lemma strip_by_join (p : N → bool) (a b sep : str) :
  strip_by p a ≠ [] → strip_by p b ≠ [] →
  strip_by p (strip_by p a ++ sep ++ strip_by p b)
  = strip_by p a ++ sep ++ strip_by p b.
Proof.
  intros Ha Hb.
  destruct (strip_by p a) as [|c ra] eqn:Ea; [done|].
  destruct (str_ends (strip_by p b)) as [E|[[c' E]|(c0 & mid & c' & E)]];
    [done| |].
  - rewrite E.
    replace ((c :: ra) ++ sep ++ [c']) with (c :: (ra ++ sep) ++ [c'])
      by (simpl; by rewrite <- (assoc_L (++))).
    apply strip_by_fixed.
    + by eapply strip_by_head.
    + eapply (strip_by_last p b []). by rewrite E.
  - rewrite E.
    replace ((c :: ra) ++ sep ++ c0 :: mid ++ [c'])
      with (c :: (ra ++ sep ++ c0 :: mid) ++ [c'])
      by (simpl; by rewrite <- !(assoc_L (++))).
    apply strip_by_fixed.
    + by eapply strip_by_head.
    + eapply (strip_by_last p b (c0 :: mid)). by rewrite E.
Qed.

End StripFacts.

(** ** Lines *)

Module LineFacts.
Import Translator Spec.
Local Open Scope nat_scope.

Lemma one_line_app (a b : str) :
  one_line (a ++ b) = one_line a && one_line b.
Proof. unfold one_line. apply forallb_app. Qed.

Lemma one_line_reverse (a : str) : one_line (reverse a) = one_line a.
Proof.
  induction a as [|c a IH]; [done|].
  rewrite reverse_cons, one_line_app, IH. unfold one_line. simpl.
  by rewrite andb_true_r, andb_comm.
Qed.

Lemma not_break_not_cr (c : N) : islinebreak c = false → (c =? 0x0D)%N = false.
Proof.
  intros H. destruct (N.eqb_spec c 0x0D) as [->|]; [|done].
  vm_compute in H. discriminate.
Qed.

(** Reading a line that holds no boundary, up to the line feed after
    it. *)
Lemma splitlines_from_line (cur l rest : str) :
  one_line l = true →
  splitlines_from cur (l ++ (0x0A%N :: rest))
  = (reverse cur ++ l) :: splitlines_from [] rest.
Proof.
  revert cur. induction l as [|c l IH]; intros cur Hl.
  - simpl. by rewrite app_nil_r.
  - unfold one_line in Hl. simpl in Hl. apply andb_true_iff in Hl as [Hc Hl].
    apply negb_true_iff in Hc.
    change ((c :: l) ++ 0x0A%N :: rest) with (c :: (l ++ 0x0A%N :: rest)).
    cbn [splitlines_from]. rewrite (not_break_not_cr c Hc), Hc.
    rewrite IH by done. rewrite reverse_cons, <- (assoc_L (++)). done.
Qed.

(** The lines of [splitlines] hold no boundary. *)
Lemma splitlines_from_one_line (s cur : str) :
  one_line cur = true →
  Forall (λ l, one_line l = true) (splitlines_from cur s).
Proof.
  remember (length s) as n eqn:Hn. revert s cur Hn.
  induction n as [n IH] using lt_wf_ind. intros s cur Hn Hcur.
  assert (one_line (reverse cur) = true) as Hrev
    by (by rewrite one_line_reverse).
  destruct s as [|c r]; simpl.
  - destruct cur; [constructor|]. by repeat constructor.
  - simpl in Hn. destruct (c =? 0x0D)%N.
    + destruct r as [|c' r'].
      * by repeat constructor.
      * destruct (c' =? 0x0A)%N; constructor; try done.
        -- apply (IH (length r')); simpl in *; [lia|done|done].
        -- apply (IH (length (c' :: r'))); simpl in *; [lia|done|done].
    + destruct (islinebreak c) eqn:Hc.
      * constructor; [done|]. apply (IH (length r)); [lia|done|done].
      * apply (IH (length r)); [lia|done|].
        unfold one_line. simpl. rewrite Hc. simpl. exact Hcur.
Qed.

Lemma splitlines_one_line (s : str) :
  Forall (λ l, one_line l = true) (splitlines s).
Proof. by apply splitlines_from_one_line. Qed.

Lemma universal_newlines_cr_other (c' : N) (r' : str) :
  (c' =? 0x0A)%N = false →
  universal_newlines (0x0D%N :: c' :: r')
  = 0x0A%N :: universal_newlines (c' :: r').
Proof.
  intros H.
  change (universal_newlines (0x0D%N :: c' :: r'))
    with (if (c' =? 0x0A)%N then 0x0A%N :: universal_newlines r'
          else 0x0A%N :: universal_newlines (c' :: r')).
  by rewrite H.
Qed.

Lemma universal_newlines_other (c : N) (r : str) :
  (c =? 0x0D)%N = false →
  universal_newlines (c :: r) = c :: universal_newlines r.
Proof. intros H. cbn [universal_newlines]. by rewrite H. Qed.

Lemma splitlines_from_cr_other (cur : str) (c' : N) (r' : str) :
  (c' =? 0x0A)%N = false →
  splitlines_from cur (0x0D%N :: c' :: r')
  = reverse cur :: splitlines_from [] (c' :: r').
Proof.
  intros H.
  change (splitlines_from cur (0x0D%N :: c' :: r'))
    with (if (c' =? 0x0A)%N then reverse cur :: splitlines_from [] r'
          else reverse cur :: splitlines_from [] (c' :: r')).
  by rewrite H.
Qed.

Lemma splitlines_from_other (cur : str) (c : N) (r : str) :
  (c =? 0x0D)%N = false →
  splitlines_from cur (c :: r)
  = if islinebreak c then reverse cur :: splitlines_from [] r
    else splitlines_from (c :: cur) r.
Proof. intros H. cbn [splitlines_from]. by rewrite H. Qed.

(** A text-mode read changes nothing for [splitlines]: CR LF and CR are
    boundaries as LF is. *)
Lemma splitlines_from_universal (s cur : str) :
  splitlines_from cur (universal_newlines s) = splitlines_from cur s.
Proof.
  remember (length s) as n eqn:Hn. revert s cur Hn.
  induction n as [n IH] using lt_wf_ind. intros s cur Hn.
  destruct s as [|c r]; [done|]. simpl in Hn.
  destruct (c =? 0x0D)%N eqn:Hc.
  - apply N.eqb_eq in Hc as ->. destruct r as [|c' r']; [done|].
    destruct (c' =? 0x0A)%N eqn:Hc'.
    + apply N.eqb_eq in Hc' as ->.
      change (universal_newlines (0x0D%N :: 0x0A%N :: r'))
        with (0x0A%N :: universal_newlines r').
      change (splitlines_from cur (0x0D%N :: 0x0A%N :: r'))
        with (reverse cur :: splitlines_from [] r').
      rewrite (splitlines_from_other cur 0x0A%N) by done.
      change (islinebreak 0x0A%N) with true. cbv iota. f_equal.
      apply (IH (length r')); simpl in *; [lia|done].
    + rewrite universal_newlines_cr_other, splitlines_from_cr_other by done.
      rewrite (splitlines_from_other cur 0x0A%N) by done.
      change (islinebreak 0x0A%N) with true. cbv iota. f_equal.
      apply (IH (length (c' :: r'))); simpl in *; [lia|done].
  - rewrite universal_newlines_other by done.
    rewrite !splitlines_from_other by done.
    destruct (islinebreak c).
    + f_equal. apply (IH (length r)); [lia|done].
    + apply (IH (length r)); [lia|done].
Qed.

Lemma splitlines_universal (s : str) :
  splitlines (universal_newlines s) = splitlines s.
Proof. apply splitlines_from_universal. Qed.

Lemma one_line_join (sep : str) (parts : list str) :
  one_line sep = true → Forall (λ l, one_line l = true) parts →
  one_line (join sep parts) = true.
Proof.
  intros Hsep Hp. induction Hp as [|x parts Hx Hp IH]; [done|].
  destruct parts as [|y parts]; [done|].
  change (join sep (x :: y :: parts)) with (x ++ sep ++ join sep (y :: parts)).
  by rewrite !one_line_app, Hx, Hsep, IH.
Qed.

Lemma one_line_infix (pre mid post : str) :
  one_line (pre ++ mid ++ post) = true → one_line mid = true.
Proof.
  rewrite !one_line_app, !andb_true_iff. tauto.
Qed.

Lemma one_line_strip_by (p : N → bool) (s : str) :
  one_line s = true → one_line (strip_by p s) = true.
Proof.
  intros H. destruct (StripFacts.strip_by_infix p s) as (pre & post & E).
  rewrite E in H. by eapply one_line_infix.
Qed.

(** The text written for a non-empty list of lines without boundary
    splits back into these lines. *)
Lemma splitlines_render (lines : list str) :
  lines ≠ [] → Forall (λ l, one_line l = true) lines →
  splitlines (render lines) = lines.
Proof.
  intros Hne Hl. unfold render, splitlines.
  induction Hl as [|x lines Hx Hl IH]; [done|].
  destruct lines as [|y lines].
  - simpl. rewrite splitlines_from_line by done. done.
  - change (join [0x0A%N] (x :: y :: lines))
      with (x ++ [0x0A%N] ++ join [0x0A%N] (y :: lines)).
    rewrite <- !(assoc_L (++)).
    change ([0x0A%N] ++ join [0x0A%N] (y :: lines) ++ [0x0A%N])
      with (0x0A%N :: (join [0x0A%N] (y :: lines) ++ [0x0A%N])).
    rewrite splitlines_from_line by done. simpl. f_equal. by apply IH.
Qed.

End LineFacts.

(** ** Further facts on the merge *)

Module MergeExtra.
Import Translator Spec StripFacts.
Local Open Scope nat_scope.

Lemma merged_line_length (op sp : str) :
  length (option_list (merged_line op sp)) = if blank op then 0 else 1.
Proof. unfold merged_line. by destruct (blank op), (blank sp). Qed.

Lemma merge_length (head tail : list str) :
  length (merge head tail)
  = length (filter (λ op, blank op = false) (take (length tail) head)).
Proof.
  rewrite MergeFacts.merge_omap. revert tail.
  induction head as [|op head IH]; intros [|sp tail]; simpl; try done.
  unfold merged_line at 1. simpl. destruct (blank op) eqn:E.
  - rewrite filter_cons_False by (by rewrite E). apply IH.
  - rewrite filter_cons_True by done.
    destruct (blank sp); simpl; f_equal; apply IH.
Qed.

(** X1. The merge pairs the lines up to the length of the shorter layer
    and ignores the rest of the longer one; it has one line for each
    non-blank head line among these, and so at most as many lines as the
    shorter layer. *)
Theorem merge_up_to_shorter (head tail : list str) :
  let n := length head `min` length tail in
  merge head tail = merge (take n head) (take n tail)
  ∧ length (merge head tail)
    = length (filter (λ op, blank op = false) (take n head))
  ∧ length (merge head tail) ≤ n.
Proof.
  intros n.
  assert (length (merge head tail)
          = length (filter (λ op, blank op = false) (take n head))) as Hlen.
  { rewrite merge_length. unfold n.
    destruct (decide (length head ≤ length tail)).
    - rewrite Nat.min_l by done. by rewrite !take_ge by lia.
    - by rewrite Nat.min_r by lia. }
  split; [|split; [done|]].
  - unfold merge. f_equal. subst n. clear Hlen. revert tail.
    induction head as [|op head IH]; intros [|sp tail]; simpl; try done.
    by rewrite <- IH.
  - rewrite Hlen. etrans; [apply length_filter|].
    rewrite length_take. lia.
Qed.

(** X2. A merged line is never empty and never the separator alone: it
    is a trimmed text. *)
Theorem merged_lines_trimmed (head tail : list str) :
  Forall (λ l, l ≠ [] ∧ strip l = l ∧ l ≠ lit " / ") (merge head tail).
Proof.
  apply Forall_forall. intros l. rewrite MergeFacts.merge_omap.
  intros ([op sp] & _ & Hl)%list_elem_of_omap.
  unfold merged_line, blank in Hl. cbn [fst snd] in Hl.
  assert (l ≠ [] ∧ strip l = l) as [H1 H2].
  { destruct (nonempty (strip op)) eqn:Eop; cbn [negb] in Hl; [|done].
    assert (strip op ≠ []) as Hop by (by destruct (strip op)).
    destruct (nonempty (strip sp)) eqn:Esp; cbn [negb] in Hl;
      [assert (l = strip op ++ lit " / " ++ strip sp) as -> by congruence
      |assert (l = strip op) as -> by congruence].
    - assert (strip sp ≠ []) as Hsp by (by destruct (strip sp)).
      split; [by destruct (strip op)|]. by apply strip_by_join.
    - split; [done | apply strip_by_idemp]. }
  split; [done | split; [done|]]. intros ->. vm_compute in H2. discriminate.
Qed.

End MergeExtra.

(** ** Further facts on the decision note *)

Module DecisionExtra.
Import Translator Spec StripFacts LineFacts.
Local Open Scope nat_scope.

Lemma omap_length_le {A B} (f : A → option B) (l : list A) :
  length (omap f l) ≤ length l.
Proof.
  induction l as [|a l IH]; [done|]. simpl.
  change (list_omap A B f l) with (omap f l).
  destruct (f a); simpl; lia.
Qed.

Lemma rationale_item_clean (ln item : str) :
  one_line ln = true → rationale_item ln = Some item →
  item ≠ [] ∧ strip item = item ∧ one_line item = true.
Proof.
  unfold rationale_item. intros Hln.
  destruct (nonempty (strip (strip_chars (lit "- ") ln))) eqn:E; [|done].
  intros [= <-]. split; [|split].
  - by destruct (strip (strip_chars (lit "- ") ln)).
  - apply strip_by_idemp.
  - by do 2 apply one_line_strip_by.
Qed.

Lemma decision_of_text_clean (text dec : str) (rationale : list str) :
  decision_of_text text = Ok (dec, rationale) →
  strip dec = dec
  ∧ Forall (λ item, item ≠ [] ∧ strip item = item ∧ one_line item = true)
           rationale
  ∧ length rationale ≤ length (splitlines text) - 1.
Proof.
  unfold decision_of_text.
  pose proof (splitlines_one_line text) as Hlines.
  destruct (splitlines text) as [|line0 rest].
  - intros [= <- <-]. split; [by vm_compute | split; [constructor | done]].
  - rewrite DecisionFacts.rationale_loop. cbv zeta. rewrite app_nil_l.
    apply Forall_cons in Hlines as [_ Hrest].
    assert (Forall (λ item, item ≠ [] ∧ strip item = item
                            ∧ one_line item = true)
                   (omap rationale_item rest)) as Hitems.
    { apply Forall_forall. intros item (ln & Hln & Hitem)%list_elem_of_omap.
      eapply rationale_item_clean; [|done].
      by eapply (proj1 (Forall_forall _ _) Hrest). }
    assert (length (omap rationale_item rest) ≤ length (line0 :: rest) - 1)
      as Hlen.
    { simpl. rewrite Nat.sub_0_r. apply omap_length_le. }
    destruct (startswith (lit "decision:") (lower (strip line0))).
    + destruct (split1 (lit ":") (strip line0) !! 1) as [v|]; [|done].
      intros [= <- <-]. split; [apply strip_by_idemp | done].
    + intros [= <- <-]. split; [by vm_compute | done].
Qed.

(** X3. What [load_decision] returns is clean: the declared value is
    trimmed; every rationale item is non-empty, trimmed and free of line
    boundaries; and there are at most as many items as lines after the
    first one, so the first line never gives an item. *)
Theorem load_decision_clean (path : string) (σ σ' : fs) (dec : str)
    (rationale : list str) :
  load_decision path σ = (σ', Ok (dec, rationale)) →
  strip dec = dec
  ∧ Forall (λ item, item ≠ [] ∧ strip item = item ∧ one_line item = true)
           rationale
  ∧ length rationale
    ≤ length (splitlines (default [] (σ !! path))) - 1.
Proof.
  rewrite DecisionFacts.load_decision_eq. intros [= _ H].
  destruct (σ !! path) as [text|]; simpl.
  - apply decision_of_text_clean in H.
    by rewrite splitlines_universal in H.
  - injection H as <- <-. split; [by vm_compute | split; [constructor | done]].
Qed.

Lemma load_decision_clean_witness :
  strip (lit "7_STEPS_OPERATOR") = lit "7_STEPS_OPERATOR"
  ∧ Forall (λ item, item ≠ [] ∧ strip item = item ∧ one_line item = true)
           [lit "two red buds"; lit "two red buds"]
  ∧ length [lit "two red buds"; lit "two red buds"]
    ≤ length (splitlines (default []
                (({[ DEC_PATH := note_example ]} : fs) !! DEC_PATH))) - 1.
Proof.
  apply (load_decision_clean DEC_PATH {[ DEC_PATH := note_example ]}
           {[ DEC_PATH := note_example ]}).
  rewrite DecisionFacts.load_decision_eq, lookup_singleton_eq. reflexivity.
Defined.

(** X4. The line ends of the note do not matter: a note whose lines end
    with CR LF or CR loads as the note with LF line ends does. *)
Theorem load_decision_line_ends (path : string) (σ1 σ2 : fs) (t1 t2 : str) :
  σ1 !! path = Some t1 → σ2 !! path = Some t2 →
  universal_newlines t1 = universal_newlines t2 →
  (load_decision path σ1).2 = (load_decision path σ2).2
  ∧ (load_decision path σ1).2 = decision_of_text t1.
Proof.
  intros H1 H2 E. rewrite !DecisionFacts.load_decision_eq, H1, H2. simpl.
  rewrite E. split; [done|]. rewrite <- E.
  unfold decision_of_text. by rewrite splitlines_universal.
Qed.

Lemma load_decision_line_ends_witness :
  let t1 := lit "decision: X" ++ [13; 10]%N ++ lit "- a" ++ [13%N] ++ lit "- b" in
  let t2 := lit "decision: X" ++ [10%N] ++ lit "- a" ++ [10%N] ++ lit "- b" in
  (load_decision DEC_PATH {[ DEC_PATH := t1 ]}).2
  = (load_decision DEC_PATH {[ DEC_PATH := t2 ]}).2
  ∧ (load_decision DEC_PATH {[ DEC_PATH := t1 ]}).2 = decision_of_text t1.
Proof.
  intros t1 t2. apply (load_decision_line_ends DEC_PATH _ _ t1 t2).
  - apply lookup_singleton_eq.
  - apply lookup_singleton_eq.
  - vm_compute. reflexivity.
Defined.

End DecisionExtra.

(** ** Further facts on the extractors and the frames *)

Module FrameExtra.
Import Translator Spec FrameFacts.
Local Open Scope nat_scope.

(** X5. [top_ops_hist] gives the first [k] entries of the histogram in
    their order, each as symbol, multiplication sign, count; all of them
    when there are at most [k]; none when the document has no
    histogram. *)
Theorem top_ops_hist_prefix (sd : seq_data) (k : nat) :
  let hist := default [] (operator_histogram sd) in
  length (top_ops_hist sd k) = k `min` length hist
  ∧ (∀ i, i < k →
       top_ops_hist sd k !! i
       = (λ e, e.1 ++ lit "×" ++ of_Z e.2) <$> hist !! i)
  ∧ (∀ i, k ≤ i → top_ops_hist sd k !! i = None)
  ∧ (length hist ≤ k →
       top_ops_hist sd k = (λ e, e.1 ++ lit "×" ++ of_Z e.2) <$> hist)
  ∧ (operator_histogram sd = None → top_ops_hist sd k = []).
Proof.
  intros hist. unfold top_ops_hist. fold hist.
  split; [|split; [|split; [|split]]].
  - by rewrite length_fmap, length_take.
  - intros i Hi. by rewrite list_lookup_fmap, lookup_take_lt.
  - intros i Hi. apply lookup_ge_None. rewrite length_fmap, length_take. lia.
  - intros Hk. by rewrite take_ge.
  - intros E. subst hist. rewrite E. simpl. by rewrite take_nil.
Qed.

Lemma top_ops_hist_prefix_witness :
  let sd := SeqData (Some [(lit "daiin", 12%Z); (lit "chedy", 7%Z);
                           (lit "shol", 3%Z)]) in
  top_ops_hist sd 2 !! 1 = Some (lit "chedy×7")
  ∧ top_ops_hist sd 2 !! 2 = None
  ∧ top_ops_hist sd 6 = [lit "daiin×12"; lit "chedy×7"; lit "shol×3"]
  ∧ top_ops_hist (SeqData None) 6 = [].
Proof.
  intros sd.
  destruct (top_ops_hist_prefix sd 2) as (_ & H1 & H2 & _).
  destruct (top_ops_hist_prefix sd 6) as (_ & _ & _ & H3 & _).
  destruct (top_ops_hist_prefix (SeqData None) 6) as (_ & _ & _ & _ & H4).
  split; [|split; [|split]].
  - rewrite (H1 1) by lia. reflexivity.
  - apply (H2 2). lia.
  - rewrite H3 by (simpl; lia). reflexivity.
  - by apply H4.
Defined.

(** X6. The [leaves] slot is always a non-empty string: it is never
    [None] and never empty, whatever the summary holds. *)
Theorem leaves_never_empty (p : pict) :
  ∃ s, leaves_of (phrase_counts p) = PyStr s ∧ s ≠ [].
Proof.
  unfold leaves_of, phrase_counts. cbn [fst snd].
  set (a := py_or (get _ _ _) (get _ _ _)). unfold py_or.
  destruct (truthy a) eqn:E.
  - destruct a as [|s]; [done|]. exists s. split; [done|]. by destruct s.
  - exists (lit "?"). split; [done|]. by vm_compute.
Qed.

Lemma startswith_app (pre s : str) : startswith pre (pre ++ s) = true.
Proof. apply startswith_prefix. eauto. Qed.

Lemma no_rationale_line_in_bodies :
  has_rationale_line body_12key = false
  ∧ has_rationale_line body_7step = false.
Proof. split; vm_compute; reflexivity. Qed.

Lemma snapshot_not_rationale p sd :
  startswith (lit "Decision rationale: ") (snapshot p sd) = false.
Proof. destruct (snapshot_head p sd) as [rest ->]. reflexivity. Qed.

Lemma has_rationale_line_lines (rationale : list str) :
  has_rationale_line (rationale_lines rationale)
  = bool_decide (rationale ≠ []).
Proof.
  destruct rationale as [|r rs]; [done|].
  unfold rationale_lines, has_rationale_line. cbn [existsb].
  by rewrite startswith_app.
Qed.

Lemma has_rationale_line_12key sd p decision rationale :
  has_rationale_line (make_12key sd p decision rationale)
  = bool_decide (rationale ≠ []).
Proof.
  rewrite make_12key_shape. unfold has_rationale_line.
  rewrite !existsb_app. fold (has_rationale_line (rationale_lines rationale)).
  fold (has_rationale_line body_12key).
  rewrite has_rationale_line_lines, (proj1 no_rationale_line_in_bodies).
  cbn [existsb]. rewrite snapshot_not_rationale.
  replace (startswith (lit "Decision rationale: ")
             (lit "Translation of f1r — Twelve Keys (Allegorical)"))
    with false by (by vm_compute).
  replace (startswith (lit "Decision rationale: ") (lit "—"))
    with false by (by vm_compute).
  replace (startswith (lit "Decision rationale: ") empty)
    with false by (by vm_compute).
  by destruct (bool_decide (rationale ≠ [])).
Qed.

Lemma has_rationale_line_7step sd p decision rationale :
  has_rationale_line (make_7step sd p decision rationale)
  = bool_decide (rationale ≠ []).
Proof.
  rewrite make_7step_shape. unfold has_rationale_line.
  rewrite !existsb_app. fold (has_rationale_line (rationale_lines rationale)).
  fold (has_rationale_line body_7step).
  rewrite has_rationale_line_lines, (proj2 no_rationale_line_in_bodies).
  cbn [existsb]. rewrite snapshot_not_rationale.
  replace (startswith (lit "Decision rationale: ")
             (lit "Translation of f1r — Seven-Step Operator Cycle"))
    with false by (by vm_compute).
  replace (startswith (lit "Decision rationale: ") (lit "—"))
    with false by (by vm_compute).
  replace (startswith (lit "Decision rationale: ") empty)
    with false by (by vm_compute).
  by destruct (bool_decide (rationale ≠ [])).
Qed.

(** X7. The long frame has a rationale line exactly when the note gives a
    rationale, and then it is its fourth line; the short frame of a run
    has one exactly when, moreover, the declared value is
    [7_STEPS_OPERATOR]: for any other declared value the rationale of the
    note shows in the long frame only. *)
Theorem rationale_line_presence sd p decision rationale :
  has_rationale_line (make_12key sd p decision rationale)
  = bool_decide (rationale ≠ [])
  ∧ has_rationale_line (main_txt7 sd p decision rationale)
    = bool_decide (decision = lit "7_STEPS_OPERATOR" ∧ rationale ≠ [])
  ∧ (rationale ≠ [] →
       make_12key sd p decision rationale !! 3
       = Some (lit "Decision rationale: " ++ join (lit "; ") rationale)).
Proof.
  split; [apply has_rationale_line_12key | split].
  - unfold main_txt7.
    destruct (decide (decision = lit "7_STEPS_OPERATOR")) as [->|Hd];
      rewrite has_rationale_line_7step.
    + apply bool_decide_ext. split; [by intros ? | by intros [_ ?]].
    + apply bool_decide_ext.
      split; [intros H; by destruct H | by intros [? _]].
  - intros Hr. rewrite make_12key_shape. by destruct rationale.
Qed.

Lemma rationale_line_presence_witness :
  make_12key (SeqData None) empty_pict (lit "12_KEYS") [lit "a"; lit "b"] !! 3
  = Some (lit "Decision rationale: a; b").
Proof.
  destruct (rationale_line_presence (SeqData None) empty_pict (lit "12_KEYS")
              [lit "a"; lit "b"]) as (_ & _ & H).
  rewrite H by done. reflexivity.
Defined.

End FrameExtra.

(** ** Further facts on the table rows *)

Module PictExtra.
Import Translator Spec.
Local Open Scope nat_scope.

Lemma fill_lookup_notin (d : gmap (list N) value) (keys : list str) (k : str) :
  k ∉ keys → foldl (λ m key, <[key := PyNone]> m) d keys !! k = d !! k.
Proof.
  revert d. induction keys as [|x keys IH]; intros d Hn; simpl; [done|].
  apply not_elem_of_cons in Hn as [Hne Hn].
  rewrite IH by done. by rewrite lookup_insert_ne.
Qed.

Lemma fill_lookup_in (d : gmap (list N) value) (keys : list str) (k : str) :
  k ∈ keys → foldl (λ m key, <[key := PyNone]> m) d keys !! k = Some PyNone.
Proof.
  revert d. induction keys as [|x keys IH]; intros d Hin; simpl.
  - by apply elem_of_nil in Hin.
  - destruct (decide (k ∈ keys)) as [Hk|Hk]; [by apply IH|].
    apply elem_of_cons in Hin as [->|Hin]; [|done].
    rewrite fill_lookup_notin by done. apply lookup_insert_eq.
Qed.

Lemma pairs_lookup_notin (m : gmap (list N) value) (h row : list str) (k : str) :
  k ∉ h →
  foldl (λ m kv, <[kv.1 := PyStr kv.2]> m) m (zip h row) !! k = m !! k.
Proof.
  revert m row. induction h as [|x h IH]; intros m row Hn; [done|].
  destruct row as [|v row]; [done|]. simpl.
  apply not_elem_of_cons in Hn as [Hne Hn].
  rewrite IH by done. by rewrite lookup_insert_ne.
Qed.

Lemma pairs_lookup (m : gmap (list N) value) (h row : list str) (i : nat)
    (k v : str) :
  h !! i = Some k → row !! i = Some v → k ∉ drop (S i) h →
  foldl (λ m kv, <[kv.1 := PyStr kv.2]> m) m (zip h row) !! k
  = Some (PyStr v).
Proof.
  revert m row i. induction h as [|x h IH]; intros m row i Hk Hv Hn; [done|].
  destruct row as [|v0 row]; [done|]. simpl. destruct i as [|i].
  - simpl in Hk, Hv, Hn. injection Hk as ->. injection Hv as ->.
    rewrite drop_0 in Hn. rewrite pairs_lookup_notin by done.
    apply lookup_insert_eq.
  - simpl in Hk, Hv, Hn. by eapply IH.
Qed.

Lemma notin_drop (h : list str) (k : str) (i j : nat) :
  i ≤ j → k ∉ drop i h → k ∉ drop j h.
Proof.
  intros Hij Hn Hin. apply Hn.
  replace j with (i + (j - i)) in Hin by lia. rewrite <- drop_drop in Hin.
  apply list_elem_of_lookup in Hin as [n Hin]. rewrite lookup_drop in Hin.
  apply list_elem_of_lookup. eauto.
Qed.

(** X8. In the mapping of a row, a name that is not in the header is
    absent, and a name of the header is always present: it holds the
    field of the row at the position of the last occurrence of the name
    in the header, and [None] when the row is too short to reach it.  So
    [get] falls back to its default for the first kind only: a field
    missing from a short row reads [None], not the default. *)
Theorem dict_row_get (header row : list str) (k : str) (d : value) :
  (k ∉ header → get (dict_row header row) k d = d)
  ∧ (∀ i, header !! i = Some k → k ∉ drop (S i) header →
       get (dict_row header row) k d
       = match row !! i with Some v => PyStr v | None => PyNone end).
Proof.
  unfold get, dict_row. split.
  - intros Hn.
    assert (k ∉ drop (length row) header) as Hn'.
    { intros Hin. apply Hn. apply list_elem_of_lookup in Hin as [n Hin].
      rewrite lookup_drop in Hin. apply list_elem_of_lookup. eauto. }
    repeat case_match; simplify_eq/=;
      rewrite ?fill_lookup_notin, ?pairs_lookup_notin, ?lookup_empty in *;
      done.
  - intros i Hk Hn.
    assert (i < length header) as Hi by (by eapply lookup_lt_Some).
    destruct (row !! i) as [v|] eqn:Hv.
    + assert (i < length row) as Hr by (by eapply lookup_lt_Some).
      assert (k ∉ drop (length row) header) as Hn'
        by (apply (notin_drop _ _ (S i)); [lia|done]).
      destruct (length header <? length row) eqn:E1; simpl.
      * by rewrite (pairs_lookup _ _ _ i k v).
      * destruct (length row <? length header) eqn:E2; simpl.
        -- rewrite fill_lookup_notin by done.
           by rewrite (pairs_lookup _ _ _ i k v).
        -- by rewrite (pairs_lookup _ _ _ i k v).
    + apply lookup_ge_None in Hv.
      assert ((length header <? length row) = false) as ->
        by (apply Nat.ltb_ge; lia).
      assert ((length row <? length header) = true) as ->
        by (apply Nat.ltb_lt; lia).
      simpl. rewrite fill_lookup_in; [done|].
      apply list_elem_of_lookup. exists (i - length row).
      rewrite lookup_drop. by replace (length row + (i - length row)) with i by lia.
Qed.

Lemma dict_row_get_witness :
  let header := [lit "roots_count"; lit "bud_count"; lit "roots_count"] in
  get (dict_row header [lit "1"; lit "2"; lit "3"]) (lit "roots_count")
      (PyStr (lit "?")) = PyStr (lit "3")
  ∧ get (dict_row header [lit "1"]) (lit "bud_count") (PyStr (lit "?")) = PyNone
  ∧ get (dict_row header [lit "1"]) (lit "bud_state") (PyStr (lit "?"))
    = PyStr (lit "?").
Proof.
  intros header. split; [|split].
  - destruct (dict_row_get header [lit "1"; lit "2"; lit "3"]
                (lit "roots_count") (PyStr (lit "?"))) as [_ H].
    rewrite (H 2); [reflexivity | reflexivity | apply not_elem_of_nil].
  - destruct (dict_row_get header [lit "1"] (lit "bud_count")
                (PyStr (lit "?"))) as [_ H].
    rewrite (H 1); [reflexivity | reflexivity |].
    apply (bool_decide_unpack _). vm_compute. exact I.
  - destruct (dict_row_get header [lit "1"] (lit "bud_state")
                (PyStr (lit "?"))) as [H _].
    apply H. apply (bool_decide_unpack _). vm_compute. exact I.
Defined.

End PictExtra.

(** ** Further facts on the orchestrator *)

Module MainExtra.
Import Translator Spec FrameFacts LineFacts MainFacts.
Local Open Scope nat_scope.

Lemma decision_result_returns (o : option str) :
  ∃ dr, decision_result o = Ok dr.
Proof.
  destruct o as [text|]; simpl; [|eauto].
  destruct (DecisionFacts.decision_of_text_spec (universal_newlines text))
    as (dec & rationale & -> & _). eauto.
Qed.

Section RunExtra.

Variable json_load : str → option seq_data.
Variable csv_reader : str → option (list (list str)).
Variable locale_encodable : str → bool.

(** X10. A run touches the ten output paths only: every other file of
    the store, the three inputs among them, is left as it was, whether
    the run returns or raises. *)
Theorem main_keeps_other_files (σ : fs) (path : string) :
  path ∉ OUTPUT_PATHS →
  (main json_load csv_reader locale_encodable σ).1 !! path = σ !! path.
Proof.
  intros Hp. rewrite main_eq.
  destruct (seq_result json_load (σ !! SEQ_PATH)) as [sd|]; [|done].
  destruct (pict_result csv_reader (σ !! PICT_PATH)) as [p|]; [|done].
  destruct (decision_result (σ !! DEC_PATH)) as [dr|]; [|done].
  apply run_writes_other. by rewrite writes_files, artifacts_paths.
Qed.

End RunExtra.

Lemma main_keeps_other_files_witness :
  let σ : fs := {[ SEQ_PATH := lit "{}" ]} in
  (main small_json_load plain_csv_reader utf8_encodable σ).1 !! SEQ_PATH
  = Some (lit "{}").
Proof.
  intros σ. rewrite main_keeps_other_files.
  - apply lookup_singleton_eq.
  - apply (bool_decide_unpack _). vm_compute. exact I.
Defined.

End MainExtra.

(** ** Written files read back *)

Module ReadBack.
Import Translator Spec FrameFacts LineFacts StripFacts MainFacts.
Local Open Scope nat_scope.

Lemma universal_newlines_one_line_parts (lines : list str) :
  Forall (λ l, one_line l = true) lines →
  universal_newlines (render lines) = render lines.
Proof.
  assert (∀ s : str, forallb (λ c, negb (c =? 0x0D)%N) s = true →
                     universal_newlines s = s) as Hno.
  { induction s as [|c s IH]; [done|]. simpl.
    intros [Hc Hs]%andb_true_iff. apply negb_true_iff in Hc.
    rewrite Hc. by rewrite IH. }
  assert (∀ s : str, one_line s = true →
                     forallb (λ c, negb (c =? 0x0D)%N) s = true) as Hcr.
  { induction s as [|c s IH]; [done|]. unfold one_line. simpl.
    intros [Hc Hs]%andb_true_iff. apply negb_true_iff in Hc.
    rewrite (not_break_not_cr c Hc). simpl. by apply IH. }
  intros Hl. apply Hno. unfold render. rewrite forallb_app.
  apply andb_true_iff. split; [|done].
  induction Hl as [|x lines Hx Hl IH]; [done|].
  destruct lines as [|y lines]; [by apply Hcr|].
  change (join [0x0A%N] (x :: y :: lines))
    with (x ++ [0x0A%N] ++ join [0x0A%N] (y :: lines)).
  rewrite !forallb_app, (Hcr x Hx), IH. done.
Qed.

Lemma utf8_encodable_app (a b : str) :
  utf8_encodable (a ++ b) = utf8_encodable a && utf8_encodable b.
Proof. unfold utf8_encodable. apply forallb_app. Qed.

Lemma utf8_encodable_join (sep : str) (parts : list str) :
  utf8_encodable sep = true →
  utf8_encodable (join sep parts) = forallb utf8_encodable parts.
Proof.
  intros Hsep. induction parts as [|x parts IH]; [done|].
  destruct parts as [|y parts]; [by cbn; rewrite andb_true_r|].
  change (join sep (x :: y :: parts)) with (x ++ sep ++ join sep (y :: parts)).
  rewrite !utf8_encodable_app, Hsep, IH. done.
Qed.

(** UTF-8 has the text written for a list of lines exactly when it has
    every line. *)
Lemma utf8_encodable_render (lines : list str) :
  utf8_encodable (render lines) = forallb utf8_encodable lines.
Proof.
  unfold render. rewrite utf8_encodable_app, utf8_encodable_join by done.
  apply andb_true_r.
Qed.

(** X12. Lines written with [write_lines] are read back: for a non-empty
    list of lines that hold no line boundary and that UTF-8 can encode
    (no line holds a surrogate code point), reading the file written and
    splitting it into lines gives the list again.  When a line cannot be
    encoded, the write raises [UnicodeEncodeError] and leaves the file
    empty. *)
Theorem write_lines_read_back (path : string) (lines : list str) (σ : fs) :
  lines ≠ [] → Forall (λ l, one_line l = true) lines →
  (forallb utf8_encodable lines = true →
   ∃ σ' text,
     (write_lines path lines ≫= λ _, read_text path) σ = (σ', Ok text)
     ∧ σ' = <[path := text]> σ
     ∧ splitlines text = lines)
  ∧ (forallb utf8_encodable lines = false →
     (write_lines path lines ≫= λ _, read_text path) σ
     = (<[path := []]> σ, Raise UnicodeEncodeError)).
Proof.
  intros Hne Hl. unfold write_lines. rewrite bind_write. fold (render lines).
  rewrite utf8_encodable_render. split; intros ->; [|done].
  exists (<[path := render lines]> σ), (render lines).
  split; [|split; [done | by apply splitlines_render]].
  unfold read_text, read_raw, mbind, M_bind, mret, M_ret.
  rewrite lookup_insert_eq. by rewrite universal_newlines_one_line_parts.
Qed.

Lemma write_lines_read_back_witness :
  (∃ σ' text,
     (write_lines OUT_12 [lit "a"; empty; lit "b c"] ≫= λ _, read_text OUT_12)
       (∅ : fs) = (σ', Ok text)
     ∧ σ' = <[OUT_12 := text]> ∅
     ∧ splitlines text = [lit "a"; empty; lit "b c"])
  ∧ (write_lines OUT_12 [[0xD800%N]] ≫= λ _, read_text OUT_12) (∅ : fs)
    = (<[OUT_12 := []]> ∅, Raise UnicodeEncodeError).
Proof.
  split.
  - apply write_lines_read_back; [done | by repeat constructor | done].
  - apply write_lines_read_back; [done | by repeat constructor | done].
Defined.

Lemma bodies_one_line :
  Forall (λ l, one_line l = true) body_12key
  ∧ Forall (λ l, one_line l = true) body_7step.
Proof. split; apply (bool_decide_unpack _); vm_compute; exact I. Qed.

Lemma rationale_lines_one_line (rationale : list str) :
  Forall (λ l, one_line l = true) rationale →
  Forall (λ l, one_line l = true) (rationale_lines rationale).
Proof.
  intros H. destruct rationale as [|r rs]; [constructor|].
  unfold rationale_lines. repeat constructor.
  rewrite one_line_app. apply andb_true_iff. split; [by vm_compute|].
  apply one_line_join; [by vm_compute | done].
Qed.

Lemma frames_one_line sd p decision rationale :
  one_line (snapshot p sd) = true →
  Forall (λ l, one_line l = true) rationale →
  Forall (λ l, one_line l = true) (make_12key sd p decision rationale)
  ∧ Forall (λ l, one_line l = true) (make_7step sd p decision rationale).
Proof.
  intros Hs Hr. rewrite make_12key_shape, make_7step_shape.
  pose proof (rationale_lines_one_line _ Hr) as Hrl.
  destruct bodies_one_line as [H12 H7].
  split; rewrite !Forall_app; repeat split; try done;
    repeat constructor; try done; by vm_compute.
Qed.

Lemma frames_utf8_encodable sd p decision rationale :
  utf8_encodable (snapshot p sd) = true →
  forallb utf8_encodable rationale = true →
  utf8_encodable (render (make_12key sd p decision rationale)) = true
  ∧ utf8_encodable (render (make_7step sd p decision rationale)) = true.
Proof.
  intros Hs Hr.
  assert (forallb utf8_encodable (rationale_lines rationale) = true) as Hrl.
  { destruct rationale as [|r rs]; [done|]. unfold rationale_lines.
    cbn [forallb]. rewrite utf8_encodable_app, utf8_encodable_join, Hr
      by (by vm_compute).
    by vm_compute. }
  rewrite !utf8_encodable_render, make_12key_shape, make_7step_shape.
  rewrite !forallb_app, Hrl. cbn [forallb]. rewrite Hs.
  split; vm_compute; reflexivity.
Qed.

Lemma snapshot_not_encodable sd p decision rationale :
  utf8_encodable (snapshot p sd) = false →
  utf8_encodable (render (make_12key sd p decision rationale)) = false.
Proof.
  intros Hs. rewrite utf8_encodable_render, make_12key_shape.
  rewrite forallb_app. cbn [forallb]. rewrite Hs.
  by rewrite !andb_false_r.
Qed.

Section RunReadBack.

Variable json_load : str → option seq_data.
Variable csv_reader : str → option (list (list str)).
Variable locale_encodable : str → bool.

(** X13. The full frames can be read back from their files. When the
    snapshot line holds no line boundary (no field of the table and no
    operator symbol holds one) and UTF-8 can encode it and the rationale
    (they hold no surrogate code point), the lines of [OUT_12] are the
    lines of the long frame and the lines of [OUT_7] those of the short
    frame, whether the later writes succeed or not: the rationale of a
    note never breaks a line, since its items come from [splitlines].
    When UTF-8 cannot encode the snapshot line, the run stops at its
    first write with [UnicodeEncodeError] and leaves [OUT_12] empty. *)
Theorem frames_read_back (σ : fs) sd p decision rationale :
  seq_result json_load (σ !! SEQ_PATH) = Ok sd →
  pict_result csv_reader (σ !! PICT_PATH) = Ok p →
  decision_result (σ !! DEC_PATH) = Ok (decision, rationale) →
  one_line (snapshot p sd) = true →
  forallb utf8_encodable rationale = true →
  let run := main json_load csv_reader locale_encodable σ in
  (utf8_encodable (snapshot p sd) = true →
   (splitlines <$> run.1 !! OUT_12) = Some (make_12key sd p decision rationale)
   ∧ (splitlines <$> run.1 !! OUT_7)
     = Some (main_txt7 sd p decision rationale))
  ∧ (utf8_encodable (snapshot p sd) = false →
     run = (<[OUT_12 := []]> σ, Raise UnicodeEncodeError)).
Proof.
  intros E1 E2 E3 Hs Henc run. split.
  - intros Hsenc.
    assert (main_txt7 sd p decision rationale
            = make_7step sd p (lit "7_STEPS_OPERATOR")
                (if decide (decision = lit "7_STEPS_OPERATOR")
                 then rationale else [])) as Htxt7
      by (unfold main_txt7; by case_decide).
    destruct (frames_utf8_encodable sd p decision rationale Hsenc Henc)
      as [U12 _].
    destruct (frames_utf8_encodable sd p (lit "7_STEPS_OPERATOR")
                (if decide (decision = lit "7_STEPS_OPERATOR")
                 then rationale else []) Hsenc) as [_ U7];
      [by case_decide|].
    rewrite <- Htxt7 in U7.
    destruct (main_frames json_load csv_reader locale_encodable σ _ _ _ _
                E1 E2 E3 U12) as [H12 H7].
    specialize (H7 U7). unfold run. rewrite H12, H7.
    cbn [fmap option_fmap option_map].
    assert (Forall (λ l, one_line l = true) rationale) as Hr.
    { destruct (σ !! DEC_PATH) as [text|]; simpl in E3.
      - apply DecisionExtra.decision_of_text_clean in E3 as (_ & Hitems & _).
        eapply Forall_impl; [exact Hitems|]. by intros ? (_ & _ & ?).
      - injection E3 as _ <-. constructor. }
    destruct (frames_one_line sd p decision rationale Hs Hr) as [F12 _].
    destruct (frames_one_line sd p (lit "7_STEPS_OPERATOR")
                (if decide (decision = lit "7_STEPS_OPERATOR")
                 then rationale else []) Hs) as [_ F7];
      [case_decide; [exact Hr | constructor]|].
    split; f_equal.
    + apply splitlines_render.
      * rewrite make_12key_shape. done.
      * exact F12.
    + rewrite Htxt7. apply splitlines_render.
      * rewrite make_7step_shape. done.
      * exact F7.
  - intros Hsenc. unfold run. rewrite main_eq, E1, E2, E3. cbn [fst snd].
    rewrite writes_cons.
    rewrite (snapshot_not_encodable sd p decision rationale Hsenc).
    reflexivity.
Qed.

End RunReadBack.

Lemma frames_read_back_witness :
  let σ : fs := {[ SEQ_PATH := lit "{}"; DEC_PATH := note_example ]} in
  let σ' := (main small_json_load plain_csv_reader utf8_encodable σ).1 in
  (splitlines <$> σ' !! OUT_12)
  = Some (make_12key (SeqData None) empty_pict (lit "7_STEPS_OPERATOR")
            [lit "two red buds"; lit "two red buds"])
  ∧ (splitlines <$> σ' !! OUT_7)
    = Some (main_txt7 (SeqData None) empty_pict (lit "7_STEPS_OPERATOR")
              [lit "two red buds"; lit "two red buds"]).
Proof.
  intros σ.
  apply (frames_read_back small_json_load plain_csv_reader utf8_encodable σ).
  - unfold σ. rewrite lookup_insert_eq. by vm_compute.
  - unfold σ. rewrite lookup_insert_ne by done.
    by rewrite lookup_singleton_ne.
  - unfold σ. rewrite lookup_insert_ne by done.
    rewrite lookup_singleton_eq. by vm_compute.
  - by vm_compute.
  - by vm_compute.
  - by vm_compute.
Defined.


End ReadBack.

(** ** Further facts on the pattern scanner *)

Module PatternRecogExtra.
Import PatternRecog PatternRecogCli Translator.
Local Open Scope nat_scope.

Lemma filter_sublist_impl {A} (P Q : A → Prop)
    `{∀ x, Decision (P x)} `{∀ x, Decision (Q x)} (l : list A) :
  (∀ x, P x → Q x) → filter P l `sublist_of` filter Q l.
Proof.
  intros HPQ. induction l as [|x l IH]; [done|].
  destruct (decide (P x)) as [HP|HP].
  - rewrite (filter_cons_True P) by done.
    rewrite (filter_cons_True Q) by auto. by apply sublist_skip.
  - rewrite (filter_cons_False P) by done.
    destruct (decide (Q x)).
    + rewrite (filter_cons_True Q) by done. by apply sublist_cons.
    + by rewrite (filter_cons_False Q) by done.
Qed.

(** X15. More text never loses an operator: the operators detected in a
    text are detected, in the same order, in every text that contains it.
    Nothing is detected in the empty text, and at most the twelve
    operators of [OPS] are reported. *)
Theorem operators_detected_monotone (pre text post : str) :
  operators_detected text `sublist_of` operators_detected (pre ++ text ++ post)
  ∧ operators_detected [] = []
  ∧ length (operators_detected text) ≤ 12.
Proof.
  split; [|split].
  - unfold operators_detected. apply filter_sublist_impl.
    intros op. rewrite !Is_true_true, !contains_substring.
    intros (a & b & ->). exists (pre ++ a), (b ++ post).
    by rewrite <- !(assoc_L (++)).
  - by vm_compute.
  - unfold operators_detected. etrans; [apply length_filter|]. done.
Qed.

Section AnalyzeFacts.

Variable claim_matches : str → nat.
Variable neg_matches : str → nat.

(** X16. The contradiction score lies between zero and the number of
    claims; every two negation markers take one claim off, and the score
    is zero exactly when half the markers (rounded down) reach the number
    of claims. *)
Theorem contradiction_score_bounds (text : str) :
  let a := analyze claim_matches neg_matches text in
  (0 ≤ contradiction_score a ≤ claims a)%Z
  ∧ (contradiction_score a = 0 ↔ claims a ≤ neg_markers a / 2)%Z
  ∧ ((neg_markers a / 2 ≤ claims a)%Z →
     (contradiction_score a = claims a - neg_markers a / 2)%Z)
  ∧ ((neg_markers a < 2)%Z → contradiction_score a = claims a).
Proof.
  intros a. unfold a, analyze. cbn [contradiction_score claims neg_markers].
  set (c := Z.of_nat (claim_matches text)).
  set (n := Z.of_nat (neg_matches text)).
  assert (0 ≤ c)%Z by lia. assert (0 ≤ n)%Z by lia.
  assert (0 ≤ n / 2)%Z by (apply Z.div_pos; lia).
  repeat split; try lia.
  intros Hn. assert (n / 2 = 0)%Z by (apply Z.div_small; lia). lia.
Qed.

End AnalyzeFacts.

Lemma contradiction_score_bounds_witness :
  contradiction_score (analyze (λ _, 3) (λ _, 1) (lit "we show")) = 3%Z.
Proof.
  apply (contradiction_score_bounds (λ _, 3) (λ _, 1) (lit "we show")).
  simpl. lia.
Defined.

End PatternRecogExtra.

(** ** The tail layers *)

Module LayerExtra.
Import Translator Spec FrameFacts MainFacts.
Local Open Scope nat_scope.

Lemma tail_layer_12key sd p decision rationale i :
  index (lit "Dual Reading:") (make_12key sd p decision rationale) = Some i →
  drop (i + 1) (make_12key sd p decision rationale) = drop 2 body_12key.
Proof.
  rewrite index_make_12key. intros [= <-].
  destruct (make_12key_split sd p decision rationale) as (h & -> & _ & E).
  by apply drop_past_marker.
Qed.

Lemma tail_layer_7step sd p decision rationale i :
  index (lit "Spiritual Parallel:") (make_7step sd p decision rationale)
  = Some i →
  drop (i + 1) (make_7step sd p decision rationale) = drop 2 body_7step.
Proof.
  rewrite index_make_7step. intros [= <-].
  destruct (make_7step_split sd p decision rationale) as (h & -> & _ & E).
  by apply drop_past_marker.
Qed.

Section RunLayers.

Variable json_load : str → option seq_data.
Variable csv_reader : str → option (list (list str)).
Variable locale_encodable : str → bool.

(** X18. The tail layer of a frame is fixed text: after any run that
    returns, whatever the three inputs hold, the two [spirit] files are
    the lines of the frame's body after its marker, trimmed as a whole. *)
Theorem spirit_files_fixed (σ : fs) :
  (main json_load csv_reader locale_encodable σ).2 = Ok tt →
  (main json_load csv_reader locale_encodable σ).1 !! OUT_12_SPIR
  = Some (render_layer (drop 2 body_12key))
  ∧ (main json_load csv_reader locale_encodable σ).1 !! OUT_7_SPIR
    = Some (render_layer (drop 2 body_7step)).
Proof.
  intros (sd & p & decision & rationale & _ & _ & _ & ->)%main_returns_inv.
  cbn [fst snd].
  assert (NoDup (artifacts sd p decision rationale).*1) as Hnd
    by (rewrite artifacts_paths; apply output_paths_NoDup).
  pose proof (index_make_12key sd p decision rationale) as H12.
  destruct (index_main_txt7 sd p decision rationale) as [i7 H7].
  assert (drop (i7 + 1) (main_txt7 sd p decision rationale)
          = drop 2 body_7step) as T7.
  { revert H7. unfold main_txt7. case_decide; apply tail_layer_7step. }
  pose proof (tail_layer_12key _ _ _ _ _ H12) as T12.
  pose proof (artifacts_eq sd p decision rationale _ _ H12 H7) as Ha.
  cbv zeta in Ha. rewrite T12, T7 in Ha.
  split; apply write_all_get; try exact Hnd; rewrite Ha.
  - by apply (list_elem_of_lookup_2 _ 3).
  - by apply (list_elem_of_lookup_2 _ 7).
Qed.

End RunLayers.

Lemma spirit_files_fixed_witness :
  let σ : fs := {[ SEQ_PATH := lit "{}"; DEC_PATH := note_example ]} in
  (main small_json_load plain_csv_reader utf8_encodable σ).1 !! OUT_7_SPIR
  = Some (render_layer (drop 2 body_7step)).
Proof.
  intros σ.
  apply (spirit_files_fixed small_json_load plain_csv_reader utf8_encodable σ).
  apply (main_example_returns note_example (lit "7_STEPS_OPERATOR")
           [lit "two red buds"; lit "two red buds"]);
    vm_compute; reflexivity.
Defined.

End LayerExtra.
